(** * eventdripper: verification of signed webhook notifications

    A shallow embedding of [eventdripper/signing.py] (with the data classes of
    [eventdripper/notification.py] and the exceptions of
    [eventdripper/exceptions.py]) and the properties proved about it.

    Conventions of the embedding.
    - A Python [str] is the list of its code points ([str]); [bytes] is a list
      of numbers below 256 ([bytes]).  [py "..."] writes an ASCII literal.
    - A Python [int] is a [Z]; the 32-bit words of SHA-256 are [N] with the
      wrap-around written out.
    - A call that may raise returns a [result]: [Ok v] or [Err e] with [e] the
      exception raised.
    - The interpreter's built-ins that the module calls ([str.split], [int],
      [str.encode], [hmac], [sha256], [hmac.compare_digest],
      [base64.b64decode]) are written out below after CPython 3.11;
      [json.loads], [parse_datetime] and the clock are inputs. *)

From Stdlib Require Import Ascii String DecimalString.
From Stdlib Require Import List NArith ZArith QArith Bool Lia.
From Stdlib Require DecimalPos.
Import ListNotations.

Set Implicit Arguments.
Close Scope Q_scope.
Set Warnings "-register-all".

(** ** Strings, bytes and exceptions *)

Definition str := list N.
Definition bytes := list N.

(** An ASCII literal as a Python [str]. *)
Definition py (s : string) : str := map N_of_ascii (list_ascii_of_string s).

Definition str_eqb (a b : str) : bool :=
  if list_eq_dec N.eq_dec a b then true else false.

(** [eventdripper/exceptions.py], and the built-in exceptions that the calls
    of [signing.py] can raise.  [InvalidPayloadFormatError] carries the
    exception it was raised from. *)
Inductive exn : Type :=
| InvalidHeaderError (reason : string)
| SignatureExpiredError
| InvalidSignatureError
| InvalidPayloadFormatError (cause : exn)
| TypeError (what : string)
| KeyError (key : str)
| ValueError (what : string)
| UnicodeEncodeError (what : string)
| BinasciiError (what : string)
| JSONDecodeError.

Inductive result (A : Type) : Type :=
| Ok (value : A)
| Err (raised : exn).

Arguments Ok {A} value.
Arguments Err {A} raised.

Definition bind {A B : Type} (r : result A) (k : A -> result B) : result B :=
  match r with
  | Ok a => k a
  | Err e => Err e
  end.

Notation "x <- r ;; k" := (bind r (fun x => k))
  (at level 61, r at next level, right associativity).

Definition is_ok {A : Type} (r : result A) : bool :=
  match r with Ok _ => true | Err _ => false end.

(** ** SHA-256 (FIPS 180-4), as [hashlib.sha256] computes it *)

Module SHA256.
Local Open Scope N_scope.

Definition mask32 : N := 0xFFFFFFFF.
Definition add32 (a b : N) : N := (a + b) mod 2 ^ 32.
Definition rotr (n x : N) : N :=
  N.lor (N.shiftr x n) (N.land (N.shiftl x (32 - n)) mask32).
Definition shr (n x : N) : N := N.shiftr x n.
Definition not32 (x : N) : N := N.lxor x mask32.

Definition Ch (x y z : N) : N := N.lxor (N.land x y) (N.land (not32 x) z).
Definition Maj (x y z : N) : N :=
  N.lxor (N.lxor (N.land x y) (N.land x z)) (N.land y z).
Definition Sigma0 (x : N) : N := N.lxor (N.lxor (rotr 2 x) (rotr 13 x)) (rotr 22 x).
Definition Sigma1 (x : N) : N := N.lxor (N.lxor (rotr 6 x) (rotr 11 x)) (rotr 25 x).
Definition sigma0 (x : N) : N := N.lxor (N.lxor (rotr 7 x) (rotr 18 x)) (shr 3 x).
Definition sigma1 (x : N) : N := N.lxor (N.lxor (rotr 17 x) (rotr 19 x)) (shr 10 x).

(** The constants of the standard are fractional parts of roots of the first
    primes: the first 32 bits after the point of the cube root for the round
    constants, of the square root for the initial hash value. *)
Definition primes : list N :=
  [ 2; 3; 5; 7; 11; 13; 17; 19; 23; 29; 31; 37; 41; 43; 47; 53; 59; 61; 67; 71;
    73; 79; 83; 89; 97; 101; 103; 107; 109; 113; 127; 131; 137; 139; 149; 151;
    157; 163; 167; 173; 179; 181; 191; 193; 197; 199; 211; 223; 227; 229; 233;
    239; 241; 251; 257; 263; 269; 271; 277; 281; 283; 293; 307; 311 ].

(** The integer cube root, one bit at a time from bit [bits - 1] down. *)
Fixpoint cube_root_bits (bits : nat) (n root : N) : N :=
  match bits with
  | O => root
  | S bits' =>
      let candidate := root + 2 ^ N.of_nat bits' in
      cube_root_bits bits' n
        (if candidate * candidate * candidate <=? n then candidate else root)
  end.

Definition frac_cube_root (p : N) : N := cube_root_bits 36 (p * 2 ^ 96) 0 mod 2 ^ 32.
Definition frac_square_root (p : N) : N := N.sqrt (p * 2 ^ 64) mod 2 ^ 32.

Definition K : list N := Eval vm_compute in map frac_cube_root primes.

Record state : Type := mkState {
  ha : N; hb : N; hc : N; hd : N; he : N; hf : N; hg : N; hh : N
}.

Definition H0 : state :=
  Eval vm_compute in
  mkState (frac_square_root 2) (frac_square_root 3) (frac_square_root 5)
          (frac_square_root 7) (frac_square_root 11) (frac_square_root 13)
          (frac_square_root 17) (frac_square_root 19).

(** Padding: a one bit, zero bits up to 56 modulo 64 bytes, and the length of
    the message in bits as a 64-bit big-endian number. *)
Definition be_bytes (count : nat) (x : N) : bytes :=
  map (fun i => N.shiftr x (8 * N.of_nat i) mod 256) (rev (seq 0 count)).

Definition pad (msg : bytes) : bytes :=
  let len := N.of_nat (length msg) in
  let zeros := (64 - (len + 9) mod 64) mod 64 in
  msg ++ [0x80] ++ repeat 0 (N.to_nat zeros) ++ be_bytes 8 (8 * len).

Fixpoint words_of (bs : bytes) : list N :=
  match bs with
  | b0 :: b1 :: b2 :: b3 :: rest =>
      (N.shiftl b0 24 + N.shiftl b1 16 + N.shiftl b2 8 + b3) :: words_of rest
  | _ => []
  end.

Fixpoint blocks (fuel : nat) (ws : list N) : list (list N) :=
  match fuel, ws with
  | S fuel', _ :: _ => firstn 16 ws :: blocks fuel' (skipn 16 ws)
  | _, _ => []
  end.

(** The message schedule: [count] more words after the words of [w]. *)
Fixpoint schedule (count : nat) (w : list N) : list N :=
  match count with
  | O => w
  | S count' =>
      let t := length w in
      let at_ (back : nat) := nth (t - back) w 0 in
      schedule count'
        (w ++ [add32 (add32 (sigma1 (at_ 2%nat)) (at_ 7%nat))
                     (add32 (sigma0 (at_ 15%nat)) (at_ 16%nat))])
  end.

Definition round (s : state) (kw : N * N) : state :=
  let (k, w) := kw in
  let t1 := add32 (add32 (add32 (hh s) (Sigma1 (he s)))
                         (add32 (Ch (he s) (hf s) (hg s)) k)) w in
  let t2 := add32 (Sigma0 (ha s)) (Maj (ha s) (hb s) (hc s)) in
  mkState (add32 t1 t2) (ha s) (hb s) (hc s) (add32 (hd s) t1) (he s) (hf s) (hg s).

Definition compress (s : state) (block : list N) : state :=
  let r := fold_left round (combine K (schedule 48 block)) s in
  mkState (add32 (ha s) (ha r)) (add32 (hb s) (hb r)) (add32 (hc s) (hc r))
          (add32 (hd s) (hd r)) (add32 (he s) (he r)) (add32 (hf s) (hf r))
          (add32 (hg s) (hg r)) (add32 (hh s) (hh r)).

Definition state_words (s : state) : list N :=
  [ha s; hb s; hc s; hd s; he s; hf s; hg s; hh s].

Definition digest (msg : bytes) : bytes :=
  let ws := words_of (pad msg) in
  flat_map (be_bytes 4) (state_words (fold_left compress (blocks (length ws) ws) H0)).

Definition block_size : nat := 64.

End SHA256.

(** ** HMAC (RFC 2104), as [hmac.new(key, msg, sha256)] computes it *)

Module HMAC.
Local Open Scope N_scope.

Definition normalise_key (key : bytes) : bytes :=
  let k := if (SHA256.block_size <? length key)%nat then SHA256.digest key else key in
  k ++ repeat 0 (SHA256.block_size - length k).

Definition digest (key msg : bytes) : bytes :=
  let k := normalise_key key in
  let inner := SHA256.digest (map (N.lxor 0x36) k ++ msg) in
  SHA256.digest (map (N.lxor 0x5C) k ++ inner).

Definition hex_digit (nibble : N) : N :=
  if nibble <? 10 then 48 + nibble else 87 + nibble.

(** [bytes.hex()]: two lowercase digits for each byte. *)
Definition hex (bs : bytes) : str :=
  flat_map (fun b => [hex_digit (b / 16); hex_digit (b mod 16)]) bs.

Definition hexdigest (key msg : bytes) : str := hex (digest key msg).

End HMAC.

(** ** Built-ins of the interpreter *)

Definition chr (a : ascii) : N := N_of_ascii a.

(** [len(s) == 0] *)
Definition is_empty {A : Type} (l : list A) : bool :=
  match l with [] => true | _ :: _ => false end.

(** [s.split(sep)] for a one-character separator: every occurrence of [sep]
    ends a part, so there is one part more than there are separators. *)
Fixpoint split (sep : N) (s : str) : list str :=
  match s with
  | [] => [[]]
  | c :: rest =>
      if N.eqb c sep then [] :: split sep rest
      else match split sep rest with
           | part :: parts => (c :: part) :: parts
           | [] => [[c]]
           end
  end.

(** [s.encode("utf-8")]: a surrogate has no encoding. *)
Definition utf8_char (c : N) : option bytes :=
  (if c <? 0x80 then Some [c]
   else if c <? 0x800 then Some [0xC0 + c / 64; 0x80 + c mod 64]
   else if (0xD800 <=? c) && (c <=? 0xDFFF) then None
   else if c <? 0x10000 then
     Some [0xE0 + c / 4096; 0x80 + (c / 64) mod 64; 0x80 + c mod 64]
   else if c <? 0x110000 then
     Some [0xF0 + c / 262144; 0x80 + (c / 4096) mod 64;
           0x80 + (c / 64) mod 64; 0x80 + c mod 64]
   else None)%N.

Fixpoint encode_utf8 (s : str) : result bytes :=
  match s with
  | [] => Ok []
  | c :: rest =>
      match utf8_char c with
      | Some bs => tail <- encode_utf8 rest ;; Ok (bs ++ tail)
      | None => Err (UnicodeEncodeError "surrogates not allowed")
      end
  end.

(** A code point that has a UTF-8 encoding. *)
Definition encodable (c : N) : bool :=
  match utf8_char c with Some _ => true | None => false end.

(** [str.isascii()] *)
Definition is_ascii (s : str) : bool := forallb (fun c => c <? 128)%N s.

(** [str(n)] and [f'{n}'] for an [int]: decimal digits, [-] before a
    negative number. *)
Definition str_of_int (n : Z) : str := py (NilZero.string_of_int (Z.to_int n)).

(** *** [int(s)] for a [str]

    CPython first rewrites the text to ASCII: a character below 127 is kept,
    a Unicode white space becomes a blank, a Unicode decimal digit becomes
    its ASCII digit, and anything else becomes [?], which no numeral holds.
    The ASCII text is then read as: white space, an optional sign, digits
    with single underscores between them, white space. *)

(** [Py_UNICODE_ISSPACE] above 127 *)
Definition unicode_space : list N :=
  [ 0x85; 0xA0; 0x1680; 0x2000; 0x2001; 0x2002; 0x2003; 0x2004; 0x2005;
    0x2006; 0x2007; 0x2008; 0x2009; 0x200A; 0x2028; 0x2029; 0x202F; 0x205F;
    0x3000 ]%N.

(** The digit zero of every run of ten decimal digits (category Nd) of
    Unicode 14.0, the tables of CPython 3.11. *)
Definition unicode_zeros : list N :=
  [ 0x30; 0x660; 0x6F0; 0x7C0; 0x966; 0x9E6; 0xA66; 0xAE6; 0xB66; 0xBE6;
    0xC66; 0xCE6; 0xD66; 0xDE6; 0xE50; 0xED0; 0xF20; 0x1040; 0x1090; 0x17E0;
    0x1810; 0x1946; 0x19D0; 0x1A80; 0x1A90; 0x1B50; 0x1BB0; 0x1C40; 0x1C50;
    0xA620; 0xA8D0; 0xA900; 0xA9D0; 0xA9F0; 0xAA50; 0xABF0; 0xFF10; 0x104A0;
    0x10D30; 0x11066; 0x110F0; 0x11136; 0x111D0; 0x112F0; 0x11450; 0x114D0;
    0x11650; 0x116C0; 0x11730; 0x118E0; 0x11950; 0x11C50; 0x11D50; 0x11DA0;
    0x16A60; 0x16AC0; 0x16B50; 0x1D7CE; 0x1D7D8; 0x1D7E2; 0x1D7EC; 0x1D7F6;
    0x1E140; 0x1E2F0; 0x1E950; 0x1FBF0 ]%N.

(** [Py_UNICODE_TODECIMAL] *)
Definition unicode_decimal (c : N) : option N :=
  match find (fun z => (z <=? c) && (c <? z + 10))%N unicode_zeros with
  | Some z => Some (c - z)%N
  | None => None
  end.

Definition transform_decimal_and_space (c : N) : N :=
  (if c <? 127 then c
   else if existsb (N.eqb c) unicode_space then chr " "
   else match unicode_decimal c with
        | Some d => chr "0" + d
        | None => chr "?"
        end)%N.

(** [Py_ISSPACE] *)
Definition is_space (c : N) : bool := ((c =? 32) || ((9 <=? c) && (c <=? 13)))%N.

Definition is_digit (c : N) : bool := ((chr "0" <=? c) && (c <=? chr "9"))%N.

Fixpoint skip_space (s : str) : str :=
  match s with
  | c :: rest => if is_space c then skip_space rest else s
  | [] => []
  end.

(** The digits and underscores at the start of [s]: the value read so far,
    the number of digits, and the text left; [None] for two underscores in a
    row or an underscore after the last digit.  [after_underscore] says that
    the character before was an underscore. *)
Fixpoint scan_digits (after_underscore : bool) (value : Z) (digits : N) (s : str)
  : option (Z * N * str) :=
  match s with
  | c :: rest =>
      if is_digit c then
        scan_digits false (10 * value + Z.of_N (c - chr "0")) (digits + 1) rest
      else if N.eqb c (chr "_") then
        if after_underscore then None else scan_digits true value digits rest
      else if after_underscore then None else Some (value, digits, s)
  | [] => if after_underscore then None else Some (value, digits, [])
  end.

(** [sys.get_int_max_str_digits()], as the interpreter starts. *)
Definition int_max_str_digits : N := 4300.

Definition invalid_literal : exn := ValueError "invalid literal for int() with base 10".

Definition int (s : str) : result Z :=
  let text := skip_space (map transform_decimal_and_space s) in
  let '(sign, text) :=
    match text with
    | c :: rest =>
        if N.eqb c (chr "+") then (1%Z, rest)
        else if N.eqb c (chr "-") then ((-1)%Z, rest)
        else (1%Z, text)
    | [] => (1%Z, text)
    end in
  match text with
  | c :: _ =>
      if N.eqb c (chr "_") then Err invalid_literal
      else
        match scan_digits false 0 0 text with
        | Some (value, digits, rest) =>
            if (int_max_str_digits <? digits)%N then
              Err (ValueError "Exceeds the limit for integer string conversion")
            else if (digits =? 0)%N then Err invalid_literal
            else if is_empty (skip_space rest) then Ok (sign * value)%Z
            else Err invalid_literal
        | None => Err invalid_literal
        end
  | [] => Err invalid_literal
  end.

(** The number that a text of digits writes in base ten. *)
Definition decimal_value (digits : str) : Z :=
  fold_left (fun value c => 10 * value + Z.of_N (c - chr "0"))%Z digits 0%Z.

(** *** [hmac.compare_digest(a, b)] for two [str]

    Text outside ASCII is refused with a [TypeError]; ASCII text is compared
    by [_tscmp], which reads every character of [b] whatever it finds. *)
Definition _tscmp (a b : str) : bool :=
  let '(lhs, result) :=
    if (length a =? length b)%nat then (a, 0%N) else (b, 1%N) in
  N.eqb (fold_left (fun acc xy => N.lor acc (N.lxor (fst xy) (snd xy)))
                   (combine lhs b) result) 0.

Definition compare_digest (a b : str) : result bool :=
  if is_ascii a && is_ascii b then Ok (_tscmp a b)
  else Err (TypeError "comparing strings with non-ASCII characters is not supported").

(** *** [base64.b64decode(s)] with its default [validate=False]

    [binascii.a2b_base64] drops every character outside the alphabet, stops at
    the padding that completes a group of four, and fails only when the
    characters it kept end inside a group. *)
Definition table_a2b_base64 (c : N) : option N :=
  (if (chr "A" <=? c) && (c <=? chr "Z") then Some (c - chr "A")
   else if (chr "a" <=? c) && (c <=? chr "z") then Some (c - chr "a" + 26)
   else if (chr "0" <=? c) && (c <=? chr "9") then Some (c - chr "0" + 52)
   else if c =? chr "+" then Some 62
   else if c =? chr "/" then Some 63
   else None)%N.

Fixpoint a2b_base64 (data : bytes) (quad_pos leftchar pads : N) (bin_data : bytes)
  : result bytes :=
  match data with
  | [] =>
      (if quad_pos =? 0 then Ok bin_data
       else if quad_pos =? 1 then
         Err (BinasciiError "Invalid base64-encoded string: number of data characters cannot be 1 more than a multiple of 4")
       else Err (BinasciiError "Incorrect padding"))%N
  | this_ch :: rest =>
      (if this_ch =? chr "=" then
         if 2 <=? quad_pos then
           if 4 <=? quad_pos + (pads + 1) then Ok bin_data
           else a2b_base64 rest quad_pos leftchar (pads + 1) bin_data
         else a2b_base64 rest quad_pos leftchar pads bin_data
       else
         match table_a2b_base64 this_ch with
         | None => a2b_base64 rest quad_pos leftchar pads bin_data
         | Some v =>
             if quad_pos =? 0 then a2b_base64 rest 1 v 0 bin_data
             else if quad_pos =? 1 then
               a2b_base64 rest 2 (v mod 16) 0 (bin_data ++ [leftchar * 4 + v / 16])
             else if quad_pos =? 2 then
               a2b_base64 rest 3 (v mod 4) 0 (bin_data ++ [leftchar * 16 + v / 4])
             else a2b_base64 rest 0 0 0 (bin_data ++ [leftchar * 64 + v])
         end)%N
  end.

(** ** Values that [json.loads] returns *)

Inductive pyval : Type :=
| PNone
| PBool (b : bool)
| PInt (n : Z)
| PFloat (bits : N)
| PStr (s : str)
| PList (items : list pyval)
| PDict (items : list (str * pyval)).

Fixpoint lookup (key : str) (items : list (str * pyval)) : option pyval :=
  match items with
  | [] => None
  | (k, v) :: rest => if str_eqb k key then Some v else lookup key rest
  end.

(** [obj[key]] for a [str] key *)
Definition getitem (obj : pyval) (key : str) : result pyval :=
  match obj with
  | PDict items =>
      match lookup key items with
      | Some v => Ok v
      | None => Err (KeyError key)
      end
  | PList _ => Err (TypeError "list indices must be integers or slices, not str")
  | PStr _ => Err (TypeError "string indices must be integers")
  | PNone | PBool _ | PInt _ | PFloat _ => Err (TypeError "object is not subscriptable")
  end.

(** What [for x in obj] goes through *)
Definition iterate (obj : pyval) : result (list pyval) :=
  match obj with
  | PList items => Ok items
  | PDict items => Ok (map (fun kv => PStr (fst kv)) items)
  | PStr s => Ok (map (fun c => PStr [c]) s)
  | PNone | PBool _ | PInt _ | PFloat _ => Err (TypeError "object is not iterable")
  end.

Definition b64decode (s : pyval) : result bytes :=
  match s with
  | PStr text =>
      if is_ascii text then a2b_base64 text 0 0 0 []
      else Err (ValueError "string argument should contain only ASCII characters")
  | _ => Err (TypeError "argument should be a bytes-like object or ASCII string")
  end.

(** *** [base64.b64encode(s)]

    [binascii.b2a_base64] without the closing newline: the bytes are shifted
    into [leftchar], an [unsigned int], and every six bits that are ready are
    written as a character of the alphabet; what is left at the end is
    written with padding. *)
Definition table_b2a_base64 (v : N) : N :=
  (if v <? 26 then chr "A" + v
   else if v <? 52 then chr "a" + (v - 26)
   else if v <? 62 then chr "0" + (v - 52)
   else if v =? 62 then chr "+"
   else chr "/")%N.

(** [while (leftbits >= 6)], which goes round twice at most. *)
Fixpoint b2a_groups (fuel : nat) (leftchar leftbits : N) : str * N :=
  match fuel with
  | O => ([], leftbits)
  | S fuel' =>
      if (6 <=? leftbits)%N then
        let this_ch := N.land (N.shiftr leftchar (leftbits - 6)) 0x3f in
        let '(more, remaining) := b2a_groups fuel' leftchar (leftbits - 6) in
        (table_b2a_base64 this_ch :: more, remaining)
      else ([], leftbits)
  end.

Fixpoint b2a_base64 (bin_data : bytes) (leftchar leftbits : N) : bytes :=
  match bin_data with
  | [] =>
      (if leftbits =? 2 then
         [table_b2a_base64 (N.shiftl (N.land leftchar 3) 4); chr "="; chr "="]
       else if leftbits =? 4 then
         [table_b2a_base64 (N.shiftl (N.land leftchar 0xf) 2); chr "="]
       else [])%N
  | b :: rest =>
      let leftchar' := (N.lor (N.shiftl leftchar 8) b mod 2 ^ 32)%N in
      let '(chars, remaining) := b2a_groups 2 leftchar' (leftbits + 8) in
      chars ++ b2a_base64 rest leftchar' remaining
  end.

Definition b64encode (s : bytes) : bytes := b2a_base64 s 0 0.

(** ** [eventdripper/client.py]

    [Client.add_event] puts [base64.b64encode(data.encode('utf8'))] under
    [data] in the body it posts; the tests write the [data] of an event the
    same way.  The request itself is left out. *)
Definition add_event_data (data : str) : result bytes :=
  encoded <- encode_utf8 data ;;
  Ok (b64encode encoded).

(** ** [eventdripper/signing.py] *)

Definition SigningVersion : str := py "v1".

(** [SignedHeader]: [_parse_header] creates it with [timestamp=None]. *)
Record SignedHeader : Type := mkSignedHeader {
  timestamp : option Z;
  signatures : list str
}.

(** [ValueError] and its subclasses, which [except ValueError] catches. *)
Definition is_ValueError (e : exn) : bool :=
  match e with
  | ValueError _ | UnicodeEncodeError _ | BinasciiError _ | JSONDecodeError => true
  | _ => false
  end.

(** The body of the loop of [_parse_header] for one element of the header. *)
Definition parse_pair (signed_header : SignedHeader) (element : str)
  : result SignedHeader :=
  match split (chr "=") element with
  | [key; value] =>
      if str_eqb key (py "t") then
        match int value with
        | Ok n => Ok (mkSignedHeader (Some n) (signatures signed_header))
        | Err e =>
            if is_ValueError e then Err (InvalidHeaderError "invalid timestamp format")
            else Err e
        end
      else if str_eqb key SigningVersion then
        Ok (mkSignedHeader (timestamp signed_header) (signatures signed_header ++ [value]))
      else Ok signed_header
  | _ => Err (InvalidHeaderError "invalid format")
  end.

Fixpoint parse_pairs (pairs : list str) (signed_header : SignedHeader)
  : result SignedHeader :=
  match pairs with
  | [] => Ok signed_header
  | element :: rest =>
      signed_header' <- parse_pair signed_header element ;;
      parse_pairs rest signed_header'
  end.

Definition _parse_header (header : str) : result SignedHeader :=
  if is_empty header then Err (InvalidHeaderError "empty header")
  else
    signed_header <- parse_pairs (split (chr ",") header) (mkSignedHeader None []) ;;
    match signatures signed_header, timestamp signed_header with
    | _ :: _, Some _ => Ok signed_header
    | _, _ => Err (InvalidHeaderError "missing fields")
    end.

(** [f'{timestamp}'] *)
Definition format_timestamp (t : option Z) : str :=
  match t with
  | Some n => str_of_int n
  | None => py "None"
  end.

Definition _compute_signature (secret : str) (t : option Z) (payload : str) : result str :=
  key <- encode_utf8 secret ;;
  msg <- encode_utf8 (format_timestamp t ++ [chr "."] ++ payload) ;;
  Ok (HMAC.hexdigest key msg).

(** [x < y] for an [int] and a [float]: Python compares the two numbers
    exactly.  The clock's reading is taken as the rational it stands for, and
    the subtraction of the tolerance as exact, which it is for any reading
    between the tolerance and 2^53. *)
Definition Qltb (x y : Q) : bool := negb (Qle_bool y x).

Section Runtime.

(** [json.loads] of the standard library. *)
Variable json_loads : str -> result pyval.

(** Modelled from the spec: [eventdripper/rfc3339.py] is not among the
    sources.  [parse_datetime] turns an RFC 3339 text into a point in time and
    fails on malformed input; here it is any function from the value it is
    given to a point in time or the exception it raises. *)
Variable datetime : Type.
Variable parse_datetime : pyval -> result datetime.

(** [eventdripper/notification.py] *)
Record Event : Type := mkEvent {
  at_ : datetime;
  name : pyval;
  data : bytes
}.

Record Notification : Type := mkNotification {
  trigger_name : pyval;
  entity_id : pyval;
  events : list Event
}.

(** [Event(at=parse_datetime(event['at']), name=event['name'],
    data=base64.b64decode(event['data']))], the arguments in this order. *)
Definition build_event (event : pyval) : result Event :=
  at_json <- getitem event (py "at") ;;
  at_value <- parse_datetime at_json ;;
  name_value <- getitem event (py "name") ;;
  data_json <- getitem event (py "data") ;;
  data_value <- b64decode data_json ;;
  Ok (mkEvent at_value name_value data_value).

(** The loop of [_build_notification]: [acc] is the list [events] so far. *)
Fixpoint build_events (pending : list pyval) (acc : list Event) : result (list Event) :=
  match pending with
  | [] => Ok acc
  | event :: rest =>
      e <- build_event event ;;
      build_events rest (acc ++ [e])
  end.

(** The body of the [try] of [_build_notification]. *)
Definition build_notification_body (payload : str) : result Notification :=
  notification_json <- json_loads payload ;;
  events_json <- getitem notification_json (py "events") ;;
  pending <- iterate events_json ;;
  evs <- build_events pending [] ;;
  trigger <- getitem notification_json (py "trigger_name") ;;
  entity <- getitem notification_json (py "entity_id") ;;
  Ok (mkNotification trigger entity evs).

Definition _build_notification (payload : str) : result Notification :=
  match build_notification_body payload with
  | Ok notification => Ok notification
  | Err e => Err (InvalidPayloadFormatError e)
  end.

(** The module's global [SigningToleranceSeconds] (300 as the module is
    loaded; the tests set it to 0) and the reading of [time.time()], both at
    the time of the call. *)
Variable SigningToleranceSeconds : Z.
Variable time_time : Q.

(** [if SigningToleranceSeconds and signed_header.timestamp < time.time() -
    SigningToleranceSeconds: raise SignatureExpiredError] *)
Definition check_tolerance (signed_header : SignedHeader) : result unit :=
  if (SigningToleranceSeconds =? 0)%Z then Ok tt
  else
    match timestamp signed_header with
    | None => Err (TypeError "'<' not supported between instances of 'NoneType' and 'float'")
    | Some t =>
        if Qltb (inject_Z t) (time_time - inject_Z SigningToleranceSeconds)
        then Err SignatureExpiredError
        else Ok tt
    end.

(** The loop over [signed_header.signatures]. *)
Fixpoint check_signatures (expected_signature : str) (candidates : list str)
    (payload : str) : result Notification :=
  match candidates with
  | [] => Err InvalidSignatureError
  | got_signatures :: rest =>
      same <- compare_digest expected_signature got_signatures ;;
      if same then _build_notification payload
      else check_signatures expected_signature rest payload
  end.

Definition construct_notification (payload header secret : str) : result Notification :=
  signed_header <- _parse_header header ;;
  _ <- check_tolerance signed_header ;;
  expected_signature <- _compute_signature secret (timestamp signed_header) payload ;;
  check_signatures expected_signature (signatures signed_header) payload.

End Runtime.

Arguments mkEvent {datetime}.
Arguments mkNotification {datetime}.

Definition SigningToleranceSeconds_default : Z := 300.

(** A digit of [hexdigest]: [0-9] or [a-f]. *)
Definition is_lower_hex (c : N) : bool :=
  (((chr "0" <=? c) && (c <=? chr "9")) || ((chr "a" <=? c) && (c <=? chr "f")))%N.

(** ** What the header says, read off its text

    The elements of a header are the parts between its commas.  These are the
    notions the properties of [_parse_header] are stated with; the parser
    itself does not use them. *)

Definition count_char (c : N) (s : str) : nat := count_occ N.eq_dec s c.

(** An element of the form [key=value] with a single [=]. *)
Definition pair_of (element : str) : option (str * str) :=
  match split (chr "=") element with
  | [key; value] => Some (key, value)
  | _ => None
  end.

(** The value of the last pair whose key is [t]. *)
Fixpoint last_t (pairs : list (str * str)) : option str :=
  match pairs with
  | [] => None
  | (key, value) :: rest =>
      match last_t rest with
      | Some later => Some later
      | None => if str_eqb key (py "t") then Some value else None
      end
  end.

(** The values of the pairs whose key is [v1], in the order of the header. *)
Definition v1_values (pairs : list (str * str)) : list str :=
  map snd (filter (fun kv => str_eqb (fst kv) SigningVersion) pairs).

(** The timestamp after the pairs [pairs], from the timestamp [before]. *)
Definition timestamp_after (before : option Z) (pairs : list (str * str))
    (after : option Z) : Prop :=
  match last_t pairs with
  | Some value => exists n, int value = Ok n /\ after = Some n
  | None => after = before
  end.

(** An element that the loop of [_parse_header] goes past. *)
Definition element_ok (element : str) : Prop :=
  exists key value, pair_of element = Some (key, value) /\
    (key = py "t" -> is_ok (int value) = true).

(** ** Base64 as RFC 4648 writes it

    The text that the spec calls a standard base64-encoded string: groups of
    four characters of the alphabet, the last group ending in at most two
    [=]. *)
Definition in_alphabet (c : N) : bool :=
  match table_a2b_base64 c with Some _ => true | None => false end.

Fixpoint rfc4648_groups (s : str) : bool :=
  match s with
  | [] => true
  | [a; b; c; d] =>
      in_alphabet a && in_alphabet b &&
      ((in_alphabet c && (in_alphabet d || N.eqb d (chr "="))) ||
       (N.eqb c (chr "=") && N.eqb d (chr "=")))
  | a :: b :: c :: d :: rest =>
      in_alphabet a && in_alphabet b && in_alphabet c && in_alphabet d &&
      rfc4648_groups rest
  | _ => false
  end.

(** A character that [a2b_base64] looks at: the alphabet and the padding. *)
Definition base64_char (c : N) : bool := in_alphabet c || N.eqb c (chr "=").

(** ** Payloads, read off the decoded JSON *)

Section PayloadShape.

Variable json_loads : str -> result pyval.
Variable datetime : Type.
Variable parse_datetime : pyval -> result datetime.

(** An event whose three fields are there, whose [at] is parsed and whose
    [data] is decoded. *)
Definition event_ok (event : pyval) : bool :=
  is_ok (at_json <- getitem event (py "at") ;; parse_datetime at_json) &&
  is_ok (getitem event (py "name")) &&
  is_ok (data_json <- getitem event (py "data") ;; b64decode data_json).

(** A payload that decodes: JSON with the three fields, [events] something
    that can be gone through, every event as above. *)
Definition payload_ok (payload : str) : Prop :=
  exists notification_json events_json pending,
    json_loads payload = Ok notification_json /\
    getitem notification_json (py "events") = Ok events_json /\
    iterate events_json = Ok pending /\
    forallb event_ok pending = true /\
    is_ok (getitem notification_json (py "trigger_name")) = true /\
    is_ok (getitem notification_json (py "entity_id")) = true.

(** An event of the result next to the JSON object it was built from. *)
Definition event_of (event : pyval) (e : Event datetime) : Prop :=
  (at_json <- getitem event (py "at") ;; parse_datetime at_json) = Ok (at_ e) /\
  getitem event (py "name") = Ok (name e) /\
  (data_json <- getitem event (py "data") ;; b64decode data_json) = Ok (data e).

End PayloadShape.

(** ** The inputs of the examples

    [json.loads] and [parse_datetime] on the texts of the examples below, and
    on nothing else.  In a payload written with [json_text] an apostrophe
    stands for a double quote. *)

Definition json_text (s : string) : str :=
  map (fun c => if N.eqb c (chr "'") then 34%N else c) (py s).

(** The payload of [test_construct_notification_actual_data]. *)
Definition actual_payload : str :=
  json_text "{'trigger_name':'trigger_now','entity_id':'michael','events':[{'at':'2020-10-09T13:47:17.321618Z','name':'trigger_now','data':'eW91d2luQHZiYW5nLmRr'}]}".

Definition actual_event_json : pyval :=
  PDict [ (py "at", PStr (py "2020-10-09T13:47:17.321618Z"));
          (py "name", PStr (py "trigger_now"));
          (py "data", PStr (py "eW91d2luQHZiYW5nLmRr")) ].

Definition actual_json : pyval :=
  PDict [ (py "trigger_name", PStr (py "trigger_now"));
          (py "entity_id", PStr (py "michael"));
          (py "events", PList [actual_event_json]) ].

Definition actual_secret : str :=
  py "6f060e57177008f4bfbc981c5fd1b2abfe22fb64fc6f4e384b5ca7b25d3ecec8".

Definition actual_header : str :=
  py "t=1602251283,v1=21b9339ced8c9b178f3f9bf7a29a212ec832443e8e2c05fd2dc7ef2fdaa70559".

(** A delivery without events. *)
Definition no_events_payload : str :=
  json_text "{'trigger_name':'trigger_now','entity_id':'michael','events':[]}".

Definition no_events_json : pyval :=
  PDict [ (py "trigger_name", PStr (py "trigger_now"));
          (py "entity_id", PStr (py "michael"));
          (py "events", PList []) ].

(** A delivery whose [data] is no base64 text. *)
Definition bad_data_payload : str :=
  json_text "{'trigger_name':'trigger_now','entity_id':'michael','events':[{'at':'2020-10-09T13:47:17.321618Z','name':'trigger_now','data':'!!!!'}]}".

Definition bad_data_event_json : pyval :=
  PDict [ (py "at", PStr (py "2020-10-09T13:47:17.321618Z"));
          (py "name", PStr (py "trigger_now"));
          (py "data", PStr (py "!!!!")) ].

Definition bad_data_json : pyval :=
  PDict [ (py "trigger_name", PStr (py "trigger_now"));
          (py "entity_id", PStr (py "michael"));
          (py "events", PList [bad_data_event_json]) ].

Definition example_json_loads (payload : str) : result pyval :=
  if str_eqb payload actual_payload then Ok actual_json
  else if str_eqb payload no_events_payload then Ok no_events_json
  else if str_eqb payload bad_data_payload then Ok bad_data_json
  else Err JSONDecodeError.

(** A point in time, in microseconds since the epoch. *)
Definition example_parse_datetime (text : pyval) : result Z :=
  match text with
  | PStr s =>
      if str_eqb s (py "2020-10-09T13:47:17.321618Z") then Ok 1602251237321618%Z
      else Err (ValueError "not an RFC 3339 timestamp")
  | _ => Err (TypeError "expected string")
  end.

(** The header that the sender of [payload] writes at time [t]:
    [f't={timestamp},v1={signature}'], as the tests build it. *)
Definition signed_header_for (secret : str) (t : Z) (payload : str) : str :=
  match _compute_signature secret (Some t) payload with
  | Ok signature => py "t=" ++ str_of_int t ++ py ",v1=" ++ signature
  | Err _ => []
  end.

(** Two more payloads: one whose second event has no fields, before a third
    that is no object; one whose [events] is an empty string. *)
Definition failing_event_payload : str :=
  json_text "{'trigger_name':'trigger_now','entity_id':'michael','events':[{'at':'2020-10-09T13:47:17.321618Z','name':'trigger_now','data':'eW91d2luQHZiYW5nLmRr'},{},5]}".

Definition failing_event_json : pyval :=
  PDict [ (py "trigger_name", PStr (py "trigger_now"));
          (py "entity_id", PStr (py "michael"));
          (py "events", PList [actual_event_json; PDict []; PInt 5]) ].

Definition string_events_payload : str :=
  json_text "{'trigger_name':'trigger_now','entity_id':'michael','events':''}".

Definition string_events_json : pyval :=
  PDict [ (py "trigger_name", PStr (py "trigger_now"));
          (py "entity_id", PStr (py "michael"));
          (py "events", PStr []) ].

Definition more_json_loads (payload : str) : result pyval :=
  if str_eqb payload failing_event_payload then Ok failing_event_json
  else if str_eqb payload string_events_payload then Ok string_events_json
  else example_json_loads payload.

(** * Properties *)

Lemma str_eqb_eq (a b : str) : str_eqb a b = true <-> a = b.
Proof.
  unfold str_eqb. destruct (list_eq_dec N.eq_dec a b); split; congruence.
Qed.

Lemma str_eqb_refl (a : str) : str_eqb a a = true.
Proof. now apply str_eqb_eq. Qed.

Lemma str_eqb_neq (a b : str) : str_eqb a b = false <-> a <> b.
Proof.
  unfold str_eqb. destruct (list_eq_dec N.eq_dec a b); split; congruence.
Qed.

Lemma bind_ok {A B : Type} (r : result A) (k : A -> result B) (b : B) :
  bind r k = Ok b <-> exists a, r = Ok a /\ k a = Ok b.
Proof.
  destruct r as [a|e]; simpl; split.
  - intros H. now exists a.
  - now intros [a' [[= <-] H]].
  - discriminate.
  - now intros [a' [[=] _]].
Qed.

Lemma bind_err {A B : Type} (r : result A) (k : A -> result B) (e : exn) :
  bind r k = Err e <-> r = Err e \/ exists a, r = Ok a /\ k a = Err e.
Proof.
  destruct r as [a|e']; simpl; split.
  - intros H. right. now exists a.
  - intros [[=]|[a' [[= <-] H]]]. exact H.
  - intros [= ->]. now left.
  - intros [[= ->]|[a' [[=] _]]]. reflexivity.
Qed.

(** ** Properties of the built-ins *)

Lemma split_not_nil (sep : N) (s : str) : split sep s <> [].
Proof.
  destruct s as [|c rest]; simpl; [discriminate|].
  destruct (N.eqb c sep); [discriminate|].
  destruct (split sep rest); discriminate.
Qed.

Lemma split_length (sep : N) (s : str) :
  length (split sep s) = S (count_char sep s).
Proof.
  unfold count_char.
  induction s as [|c rest IH]; simpl; [reflexivity|].
  destruct (N.eqb_spec c sep) as [->|Hne].
  - destruct (N.eq_dec sep sep); [|congruence]. simpl. now rewrite IH.
  - destruct (N.eq_dec c sep); [congruence|].
    destruct (split sep rest) eqn:E; simpl in *; [discriminate|exact IH].
Qed.

Lemma pair_of_some (element : str) :
  (exists kv, pair_of element = Some kv) <-> count_char (chr "=") element = 1%nat.
Proof.
  unfold pair_of. pose proof (split_length (chr "=") element) as L.
  destruct (split (chr "=") element) as [|k [|v [|x l]]]; cbn [length] in L.
  - discriminate.
  - split; [intros [kv H]; discriminate | lia].
  - split; [lia | intros _; now exists (k, v)].
  - split; [intros [kv H]; discriminate | lia].
Qed.

Lemma pair_of_none (element : str) :
  pair_of element = None <-> count_char (chr "=") element <> 1%nat.
Proof.
  rewrite <- pair_of_some. destruct (pair_of element) as [kv|]; split.
  - discriminate.
  - intros H. exfalso. apply H. now exists kv.
  - intros _ [kv H]. discriminate.
  - reflexivity.
Qed.

Lemma int_raises_ValueError (s : str) (e : exn) :
  int s = Err e -> is_ValueError e = true.
Proof.
  unfold int, invalid_literal.
  repeat match goal with
         | |- context [match ?x with _ => _ end] => destruct x
         | |- context [if ?b then _ else _] => destruct b
         end; intros [= <-]; reflexivity.
Qed.

Lemma digit_facts (c : N) :
  is_digit c = true ->
  transform_decimal_and_space c = c /\ is_space c = false /\
  N.eqb c (chr "+") = false /\ N.eqb c (chr "-") = false /\ N.eqb c (chr "_") = false.
Proof.
  unfold is_digit, transform_decimal_and_space, is_space.
  change (chr "0") with 48%N. change (chr "9") with 57%N.
  change (chr "+") with 43%N. change (chr "-") with 45%N. change (chr "_") with 95%N.
  intros H. apply andb_true_iff in H as [H1 H2].
  apply N.leb_le in H1, H2.
  assert ((c <? 127)%N = true) as -> by (apply N.ltb_lt; lia).
  assert ((c =? 32)%N = false) as -> by (apply N.eqb_neq; lia).
  assert ((c <=? 13)%N = false) as -> by (apply N.leb_gt; lia).
  rewrite andb_false_r.
  repeat split; try reflexivity; apply N.eqb_neq; lia.
Qed.

Lemma scan_digits_all (digits : str) :
  forallb is_digit digits = true ->
  forall value count,
  scan_digits false value count digits =
  Some (fold_left (fun v c => 10 * v + Z.of_N (c - chr "0"))%Z digits value,
        (count + N.of_nat (length digits))%N, []).
Proof.
  induction digits as [|c rest IH]; cbn [forallb]; intros H value count.
  - cbn. now rewrite N.add_0_r.
  - apply andb_true_iff in H as [Hc Hr]. cbn [scan_digits fold_left length].
    rewrite Hc, (IH Hr), Nat2N.inj_succ. do 3 f_equal. lia.
Qed.

(** X3.  A text of at most 4300 ASCII digits is read as the number it writes
    in base ten. *)
Lemma int_reads_decimal_digits (digits : str) :
  digits <> [] -> forallb is_digit digits = true ->
  (length digits <= 4300)%nat ->
  int digits = Ok (decimal_value digits).
Proof.
  intros Hne Hd Hlen. unfold int.
  assert (map transform_decimal_and_space digits = digits) as ->.
  { clear Hne Hlen. induction digits as [|c rest IH]; [reflexivity|].
    cbn [forallb] in Hd. apply andb_true_iff in Hd as [Hc Hr].
    cbn [map]. now rewrite (proj1 (digit_facts _ Hc)), (IH Hr). }
  destruct digits as [|c rest]; [congruence|].
  pose proof Hd as Hd'. cbn [forallb] in Hd'. apply andb_true_iff in Hd' as [Hc _].
  destruct (digit_facts _ Hc) as (_ & Hs & Hplus & Hminus & Hus).
  cbn [skip_space]. rewrite Hs, Hplus, Hminus, Hus.
  rewrite (scan_digits_all _ Hd).
  assert ((int_max_str_digits <? 0 + N.of_nat (length (c :: rest)))%N = false) as ->.
  { apply N.ltb_ge. unfold int_max_str_digits. lia. }
  assert ((0 + N.of_nat (length (c :: rest)) =? 0)%N = false) as ->.
  { apply N.eqb_neq. cbn [length]. lia. }
  cbn [skip_space is_empty]. unfold decimal_value. f_equal. lia.
Qed.

Lemma int_reads_decimal_digits_witness :
  int (py "1601036356") = Ok (decimal_value (py "1601036356")).
Proof.
  apply int_reads_decimal_digits; [discriminate|reflexivity|].
  cbn [py list_ascii_of_string map length]. lia.
Defined.

(** ** [_parse_header] *)

(** One turn of the loop, by the key of the element. *)
Lemma parse_pair_ok (sh sh' : SignedHeader) (element : str) :
  parse_pair sh element = Ok sh' ->
  exists key value, pair_of element = Some (key, value) /\
    ((key = py "t" /\ exists n, int value = Ok n /\
        sh' = mkSignedHeader (Some n) (signatures sh)) \/
     (key <> py "t" /\ key = SigningVersion /\
        sh' = mkSignedHeader (timestamp sh) (signatures sh ++ [value])) \/
     (key <> py "t" /\ key <> SigningVersion /\ sh' = sh)).
Proof.
  unfold parse_pair, pair_of.
  destruct (split (chr "=") element) as [|key [|value [|x l]]]; try discriminate.
  intros H. exists key, value. split; [reflexivity|].
  destruct (str_eqb key (py "t")) eqn:Et.
  - apply str_eqb_eq in Et. left. split; [exact Et|].
    destruct (int value) as [n|e]; [|destruct (is_ValueError e); discriminate].
    exists n. split; [reflexivity|]. now injection H as <-.
  - apply str_eqb_neq in Et. right.
    destruct (str_eqb key SigningVersion) eqn:Ev.
    + apply str_eqb_eq in Ev. left. repeat split; try assumption.
      now injection H as <-.
    + apply str_eqb_neq in Ev. right. repeat split; try assumption.
      now injection H as <-.
Qed.

Lemma parse_pair_err (sh : SignedHeader) (element : str) (e : exn) :
  parse_pair sh element = Err e ->
  (pair_of element = None /\ e = InvalidHeaderError "invalid format") \/
  (exists value, pair_of element = Some (py "t", value) /\
     is_ok (int value) = false /\
     e = InvalidHeaderError "invalid timestamp format").
Proof.
  unfold parse_pair, pair_of.
  destruct (split (chr "=") element) as [|key [|value [|x l]]];
    try (intros [= <-]; left; split; reflexivity).
  destruct (str_eqb key (py "t")) eqn:Et.
  - apply str_eqb_eq in Et. subst key.
    destruct (int value) as [n|e'] eqn:Ei; [discriminate|].
    rewrite (int_raises_ValueError _ Ei). intros [= <-].
    right. exists value. rewrite Ei. repeat split.
  - destruct (str_eqb key SigningVersion); discriminate.
Qed.

Lemma parse_pair_element_ok (sh : SignedHeader) (element : str) :
  element_ok element -> exists sh', parse_pair sh element = Ok sh'.
Proof.
  intros (key & value & Hp & Ht).
  destruct (parse_pair sh element) as [sh'|e] eqn:E; [now exists sh'|].
  apply parse_pair_err in E as [[Hn _]|(v & Hv & Hi & _)].
  - congruence.
  - rewrite Hp in Hv. injection Hv as -> ->.
    rewrite (Ht eq_refl) in Hi. discriminate.
Qed.

(** The loop: what it leaves in the header it returns. *)
Lemma parse_pairs_ok (elements : list str) :
  forall sh0 sh, parse_pairs elements sh0 = Ok sh ->
  exists pairs,
    map pair_of elements = map Some pairs /\
    timestamp_after (timestamp sh0) pairs (timestamp sh) /\
    signatures sh = signatures sh0 ++ v1_values pairs.
Proof.
  induction elements as [|element rest IH]; intros sh0 sh H.
  - injection H as <-. exists []. unfold timestamp_after, v1_values. simpl.
    now rewrite app_nil_r.
  - simpl in H. apply bind_ok in H as (sh1 & H1 & H2).
    apply parse_pair_ok in H1 as (key & value & Hp & Hcase).
    apply IH in H2 as (pairs & Hm & Ht & Hs).
    exists ((key, value) :: pairs). cbn [map]. rewrite Hp, Hm.
    split; [reflexivity|].
    unfold timestamp_after, v1_values in *. cbn [last_t filter map fst snd].
    destruct Hcase as [(-> & n & Hi & ->)|[(Hk & -> & ->)|(Hk & Hv & ->)]];
      cbn [timestamp signatures] in *.
    + rewrite str_eqb_refl.
      replace (str_eqb (py "t") SigningVersion) with false by reflexivity.
      split; [|exact Hs].
      destruct (last_t pairs); [exact Ht|]. exists n. now split.
    + rewrite str_eqb_refl.
      replace (str_eqb SigningVersion (py "t")) with false by reflexivity.
      cbn [map snd]. split.
      * destruct (last_t pairs); exact Ht.
      * rewrite Hs. now rewrite <- app_assoc.
    + apply str_eqb_neq in Hk, Hv. rewrite Hk, Hv. split.
      * destruct (last_t pairs); exact Ht.
      * exact Hs.
Qed.

(** The loop goes through a header whose elements are all singly split
    pairs with readable timestamps. *)
Lemma parse_pairs_total (elements : list str) :
  Forall element_ok elements ->
  forall sh0, exists sh, parse_pairs elements sh0 = Ok sh.
Proof.
  induction 1 as [|element rest Hok _ IH]; intros sh0; simpl.
  - now exists sh0.
  - destruct (parse_pair_element_ok sh0 Hok) as [sh1 ->]. simpl. apply IH.
Qed.

(** The loop stops at the first element that is not a pair. *)
Lemma parse_pairs_invalid_format (before after : list str) (element : str) :
  Forall element_ok before -> pair_of element = None ->
  forall sh0, parse_pairs (before ++ element :: after) sh0 =
              Err (InvalidHeaderError "invalid format").
Proof.
  intros Hb Hn. induction Hb as [|e rest Hok _ IH]; intros sh0; simpl.
  - unfold parse_pair, pair_of in *.
    destruct (split (chr "=") element) as [|k [|v [|x l]]]; try reflexivity.
    discriminate.
  - destruct (parse_pair_element_ok sh0 Hok) as [sh1 ->]. simpl. apply IH.
Qed.

Lemma parse_pairs_err (elements : list str) :
  forall sh0 e, parse_pairs elements sh0 = Err e ->
  exists reason, e = InvalidHeaderError reason.
Proof.
  induction elements as [|element rest IH]; intros sh0 e H; simpl in H.
  - discriminate.
  - apply bind_err in H as [H|(sh1 & _ & H)].
    + apply parse_pair_err in H as [[_ ->]|(v & _ & _ & ->)]; eauto.
    + eapply IH, H.
Qed.

Lemma parse_pairs_all_pairs (elements : list str) :
  forall sh0 sh, parse_pairs elements sh0 = Ok sh ->
  Forall (fun e => count_char (chr "=") e = 1%nat) elements.
Proof.
  induction elements as [|element rest IH]; intros sh0 sh H; [constructor|].
  simpl in H. apply bind_ok in H as (sh1 & H1 & H2).
  constructor; [|eapply IH, H2].
  apply parse_pair_ok in H1 as (k & v & Hp & _).
  apply pair_of_some. now exists (k, v).
Qed.

Lemma parse_header_unfold (header : str) :
  header <> [] ->
  _parse_header header =
    (signed_header <- parse_pairs (split (chr ",") header) (mkSignedHeader None []) ;;
     match signatures signed_header, timestamp signed_header with
     | _ :: _, Some _ => Ok signed_header
     | _, _ => Err (InvalidHeaderError "missing fields")
     end).
Proof. destruct header; [congruence|reflexivity]. Qed.

Lemma parse_header_err (header : str) (e : exn) :
  _parse_header header = Err e -> exists reason, e = InvalidHeaderError reason.
Proof.
  destruct header as [|c rest].
  - intros [= <-]. eauto.
  - rewrite parse_header_unfold by discriminate.
    intros H. apply bind_err in H as [H|(sh & _ & H)].
    + eapply parse_pairs_err, H.
    + destruct (signatures sh), (timestamp sh); try discriminate;
        injection H as <-; eauto.
Qed.

Lemma parse_header_has_timestamp (header : str) (sh : SignedHeader) :
  _parse_header header = Ok sh -> exists t, timestamp sh = Some t.
Proof.
  destruct header as [|c rest]; [discriminate|].
  rewrite parse_header_unfold by discriminate. intros H.
  apply bind_ok in H as (sh' & _ & H).
  destruct (signatures sh'), (timestamp sh') as [t|] eqn:Et; try discriminate.
  injection H as <-. now exists t.
Qed.

Lemma elements_ok_of_pairs (elements : list str) :
  forall pairs,
  map pair_of elements = map Some pairs ->
  (forall value, In (py "t", value) pairs -> is_ok (int value) = true) ->
  Forall element_ok elements.
Proof.
  induction elements as [|element rest IH]; intros [|[k v] pairs] Hm Ht;
    try discriminate; constructor.
  - injection Hm as Hp _. exists k, v. split; [exact Hp|].
    intros ->. apply Ht. now left.
  - injection Hm as _ Hm. apply (IH pairs Hm).
    intros value Hin. apply Ht. now right.
Qed.

(** C4.  The header that [_parse_header] returns: its timestamp is what
    [int] reads in the value of the last [t] pair, its signatures are the
    values of the [v1] pairs in the order of the header, duplicates kept and
    every other key left out; there is a timestamp and at least one
    signature.  A header whose pairs are all read and that has no [v1] pair
    or no [t] pair is refused with [missing fields]; one that has both is
    accepted. *)
Theorem parse_header_postcondition (header : str) :
  (forall sh, _parse_header header = Ok sh ->
     exists pairs value t,
       map pair_of (split (chr ",") header) = map Some pairs /\
       last_t pairs = Some value /\ int value = Ok t /\
       timestamp sh = Some t /\
       signatures sh = v1_values pairs /\ signatures sh <> []) /\
  (forall pairs,
     header <> [] ->
     map pair_of (split (chr ",") header) = map Some pairs ->
     (forall value, In (py "t", value) pairs -> is_ok (int value) = true) ->
     (v1_values pairs = [] \/ last_t pairs = None ->
      _parse_header header = Err (InvalidHeaderError "missing fields")) /\
     (v1_values pairs <> [] -> last_t pairs <> None ->
      exists sh, _parse_header header = Ok sh)).
Proof.
  split.
  - intros sh H.
    destruct header as [|c rest]; [discriminate|].
    rewrite parse_header_unfold in H by discriminate.
    apply bind_ok in H as (sh' & Hloop & Hend).
    apply parse_pairs_ok in Hloop as (pairs & Hm & Ht & Hs).
    destruct (signatures sh') as [|s sigs] eqn:Es; [discriminate|].
    destruct (timestamp sh') as [t|] eqn:Et; [|discriminate].
    injection Hend as <-. unfold timestamp_after in Ht. cbn [timestamp] in Ht.
    destruct (last_t pairs) as [value|] eqn:El; [|discriminate].
    destruct Ht as (n & Hi & [= ->]).
    exists pairs, value, n. rewrite Es, Et. cbn [signatures app] in Hs.
    repeat split; try assumption; try discriminate.
  - intros pairs Hne Hm Hts.
    rewrite parse_header_unfold by assumption.
    destruct (parse_pairs_total (elements_ok_of_pairs _ _ Hm Hts)
                (mkSignedHeader None [])) as [sh Hloop].
    rewrite Hloop. cbn [bind].
    apply parse_pairs_ok in Hloop as (pairs' & Hm' & Ht & Hs).
    assert (pairs' = pairs) as ->.
    { rewrite Hm in Hm'. clear - Hm'. revert pairs' Hm'.
      induction pairs as [|p ps IH]; intros [|p' ps'] H; try discriminate;
        [reflexivity|]. injection H as <- H. f_equal. now apply IH. }
    unfold timestamp_after in Ht. cbn [timestamp signatures app] in Ht, Hs.
    split.
    + intros [Hv|Hl].
      * rewrite Hs, Hv. reflexivity.
      * rewrite Hl in Ht. rewrite Ht. now destruct (signatures sh).
    + intros Hv Hl. exists sh.
      destruct (last_t pairs) as [value|]; [|congruence].
      destruct Ht as (n & _ & ->). rewrite Hs.
      destruct (v1_values pairs); [congruence|reflexivity].
Qed.

(** The three headers of [test_parse_header] that are accepted, and a header
    with neither a timestamp nor a signature. *)
Lemma parse_header_postcondition_witness :
  (exists pairs value t,
     map pair_of (split (chr ",") (py "t=1601036356,v1=FOO,v1=BAR")) = map Some pairs /\
     last_t pairs = Some value /\ int value = Ok t /\
     timestamp (mkSignedHeader (Some 1601036356%Z) [py "FOO"; py "BAR"]) = Some t /\
     signatures (mkSignedHeader (Some 1601036356%Z) [py "FOO"; py "BAR"]) = v1_values pairs /\
     signatures (mkSignedHeader (Some 1601036356%Z) [py "FOO"; py "BAR"]) <> []) /\
  _parse_header (py "v0=BAR") = Err (InvalidHeaderError "missing fields").
Proof.
  split.
  - apply (proj1 (parse_header_postcondition (py "t=1601036356,v1=FOO,v1=BAR"))).
    reflexivity.
  - apply (proj2 (parse_header_postcondition (py "v0=BAR")) [(py "v0", py "BAR")]).
    + discriminate.
    + reflexivity.
    + intros value [[=]|[]].
    + left. reflexivity.
Defined.

(** C5, as the code has it.  [pair.split('=')] cuts an element at every [=],
    so an element is a pair only when it holds a single [=]: a header that is
    accepted has exactly one [=] in every element, and the first element with
    none or with several ends the call with [invalid format]. *)
Theorem element_split_at_every_equals (header : str) :
  (forall element,
     length (split (chr "=") element) = S (count_char (chr "=") element)) /\
  (forall sh, _parse_header header = Ok sh ->
     Forall (fun element => count_char (chr "=") element = 1%nat)
            (split (chr ",") header)) /\
  (forall before element after,
     header <> [] ->
     split (chr ",") header = before ++ element :: after ->
     Forall element_ok before ->
     count_char (chr "=") element <> 1%nat ->
     _parse_header header = Err (InvalidHeaderError "invalid format")) /\
  (forall element,
     In element (split (chr ",") header) ->
     count_char (chr "=") element <> 1%nat ->
     exists reason, _parse_header header = Err (InvalidHeaderError reason)).
Proof.
  split; [intros; apply split_length|].
  assert (forall sh, _parse_header header = Ok sh ->
     Forall (fun element => count_char (chr "=") element = 1%nat)
            (split (chr ",") header)) as Hall.
  { intros sh H. destruct header as [|c rest]; [discriminate|].
    rewrite parse_header_unfold in H by discriminate.
    apply bind_ok in H as (sh' & Hloop & _).
    eapply parse_pairs_all_pairs, Hloop. }
  split; [exact Hall|]. split.
  - intros before element after Hne Hs Hb Hc.
    rewrite parse_header_unfold by assumption. rewrite Hs.
    rewrite parse_pairs_invalid_format; [reflexivity|assumption|].
    now apply pair_of_none.
  - intros element Hin Hc.
    destruct (_parse_header header) as [sh|e] eqn:E.
    + exfalso. apply Hc. specialize (Hall sh eq_refl).
      rewrite Forall_forall in Hall. now apply Hall.
    + destruct (parse_header_err _ E) as [reason ->]. now exists reason.
Qed.

Lemma element_split_at_every_equals_witness :
  Forall (fun element => count_char (chr "=") element = 1%nat)
         (split (chr ",") (py "t=1,v1=haps")) /\
  _parse_header (py "t=1,v1=abc=def,v1=haps") = Err (InvalidHeaderError "invalid format").
Proof.
  split.
  - apply (proj1 (proj2 (element_split_at_every_equals (py "t=1,v1=haps")))
             (mkSignedHeader (Some 1%Z) [py "haps"])).
    reflexivity.
  - apply (proj1 (proj2 (proj2 (element_split_at_every_equals
             (py "t=1,v1=abc=def,v1=haps"))))
             [py "t=1"] (py "v1=abc=def") [py "v1=haps"]).
    + discriminate.
    + reflexivity.
    + constructor; [|constructor]. exists (py "t"), (py "1").
      split; reflexivity.
    + discriminate.
Defined.

(** C5, as the spec has it, fails: the element [v1=abc=def] is cut in three
    parts and the header is refused. *)
Lemma value_with_equals_is_refused :
  split (chr "=") (py "v1=abc=def") = [py "v1"; py "abc"; py "def"] /\
  _parse_header (py "t=1,v1=abc=def") = Err (InvalidHeaderError "invalid format").
Proof. split; reflexivity. Qed.

(** C10.  [int] reads numerals that are not in canonical form: blanks around
    the digits, a plus sign, an underscore between digits. *)
Theorem parse_header_reads_loose_numerals :
  _parse_header (py "t= 5,v1=x") = Ok (mkSignedHeader (Some 5%Z) [py "x"]) /\
  _parse_header (py "t=+5,v1=x") = Ok (mkSignedHeader (Some 5%Z) [py "x"]) /\
  _parse_header (py "t=1_0,v1=x") = Ok (mkSignedHeader (Some 10%Z) [py "x"]).
Proof. repeat split; vm_compute; reflexivity. Qed.

(** ** [_compute_signature] *)

Lemma be_bytes_length (count : nat) (x : N) : length (SHA256.be_bytes count x) = count.
Proof. unfold SHA256.be_bytes. now rewrite length_map, length_rev, length_seq. Qed.

Lemma be_bytes_range (count : nat) (x : N) :
  Forall (fun b => b < 256)%N (SHA256.be_bytes count x).
Proof.
  unfold SHA256.be_bytes. apply Forall_map, Forall_forall. intros i _.
  now apply N.mod_lt.
Qed.

Lemma sha256_digest_length (msg : bytes) : length (SHA256.digest msg) = 32%nat.
Proof.
  unfold SHA256.digest, SHA256.state_words. cbn [flat_map].
  now rewrite !length_app, !be_bytes_length.
Qed.

Lemma sha256_digest_range (msg : bytes) : Forall (fun b => b < 256)%N (SHA256.digest msg).
Proof.
  unfold SHA256.digest, SHA256.state_words. cbn [flat_map].
  repeat (apply Forall_app; split); try apply be_bytes_range. constructor.
Qed.

Lemma hex_digit_lower_hex (nibble : N) :
  (nibble < 16)%N -> is_lower_hex (HMAC.hex_digit nibble) = true.
Proof.
  intros H. unfold HMAC.hex_digit, is_lower_hex.
  change (chr "0") with 48%N. change (chr "9") with 57%N.
  change (chr "a") with 97%N. change (chr "f") with 102%N.
  destruct (N.ltb_spec nibble 10).
  - apply orb_true_iff. left. apply andb_true_iff.
    split; apply N.leb_le; lia.
  - apply orb_true_iff. right. apply andb_true_iff.
    split; apply N.leb_le; lia.
Qed.

Lemma hex_length (bs : bytes) : length (HMAC.hex bs) = (2 * length bs)%nat.
Proof.
  unfold HMAC.hex. induction bs as [|b rest IH]; simpl; [reflexivity|].
  rewrite IH. lia.
Qed.

Lemma hex_lower_hex (bs : bytes) :
  Forall (fun b => b < 256)%N bs -> forallb is_lower_hex (HMAC.hex bs) = true.
Proof.
  unfold HMAC.hex. induction 1 as [|b rest Hb _ IH]; [reflexivity|].
  cbn [flat_map app forallb]. rewrite IH.
  rewrite !hex_digit_lower_hex; [reflexivity| |].
  - now apply N.mod_lt.
  - apply N.Div0.div_lt_upper_bound. exact Hb.
Qed.

Lemma lower_hex_is_ascii (s : str) : forallb is_lower_hex s = true -> is_ascii s = true.
Proof.
  unfold is_ascii. induction s as [|c rest IH]; [reflexivity|].
  cbn [forallb]. intros H. apply andb_true_iff in H as [Hc Hr].
  rewrite (IH Hr), andb_true_r. unfold is_lower_hex in Hc.
  change (chr "0") with 48%N in Hc. change (chr "9") with 57%N in Hc.
  change (chr "a") with 97%N in Hc. change (chr "f") with 102%N in Hc.
  apply N.ltb_lt.
  apply orb_true_iff in Hc as [Hc|Hc]; apply andb_true_iff in Hc as [_ Hc];
    apply N.leb_le in Hc; lia.
Qed.

Lemma compute_signature_ok (secret : str) (t : option Z) (payload signature : str) :
  _compute_signature secret t payload = Ok signature ->
  exists key msg,
    encode_utf8 secret = Ok key /\
    encode_utf8 (format_timestamp t ++ [chr "."] ++ payload) = Ok msg /\
    signature = HMAC.hex (HMAC.digest key msg).
Proof.
  unfold _compute_signature. intros H.
  apply bind_ok in H as (key & Hk & H). apply bind_ok in H as (msg & Hm & H).
  injection H as <-. now exists key, msg.
Qed.

Lemma compute_signature_err (secret : str) (t : option Z) (payload : str) (e : exn) :
  _compute_signature secret t payload = Err e -> exists what, e = UnicodeEncodeError what.
Proof.
  assert (forall s e', encode_utf8 s = Err e' -> exists what, e' = UnicodeEncodeError what) as Henc.
  { induction s as [|c rest IH]; intros e' H; simpl in H; [discriminate|].
    destruct (utf8_char c).
    - apply bind_err in H as [H|(tail & _ & H)]; [now apply IH|discriminate].
    - injection H as <-. eauto. }
  unfold _compute_signature. intros H.
  apply bind_err in H as [H|(key & _ & H)]; [now eapply Henc, H|].
  apply bind_err in H as [H|(msg & _ & H)]; [now eapply Henc, H|discriminate].
Qed.

Lemma compute_signature_lower_hex (secret : str) (t : option Z) (payload signature : str) :
  _compute_signature secret t payload = Ok signature ->
  length signature = 64%nat /\ forallb is_lower_hex signature = true.
Proof.
  intros H. apply compute_signature_ok in H as (key & msg & _ & _ & ->).
  unfold HMAC.digest. split.
  - now rewrite hex_length, sha256_digest_length.
  - apply hex_lower_hex, sha256_digest_range.
Qed.

(** The first and the last round constant and the first word of the initial
    hash value, as FIPS 180-4 prints them. *)
Lemma sha256_constants :
  nth 0 SHA256.K 0%N = 0x428a2f98%N /\ nth 63 SHA256.K 0%N = 0xc67178f2%N /\
  length SHA256.K = 64%nat /\ SHA256.ha SHA256.H0 = 0x6a09e667%N.
Proof. repeat split. Qed.

(** The hash and the MAC on the vectors of their standards: SHA-256 of
    [abc] (FIPS 180-4) and the first case of RFC 4231. *)
Lemma sha256_abc :
  HMAC.hex (SHA256.digest (py "abc")) =
  py "ba7816bf8f01cfea414140de5dae2223b00361a396177a9cb410ff61f20015ad".
Proof. vm_compute. reflexivity. Qed.

Lemma hmac_rfc4231_case1 :
  HMAC.hexdigest (repeat 0x0b%N 20) (py "Hi There") =
  py "b0344c61d8db38535ca8afceaf0bf12b881dc200c9833da726e9376c2e32cff7".
Proof. vm_compute. reflexivity. Qed.



(** ** [hmac.compare_digest] *)

Lemma fold_lor_zero (pairs : list (N * N)) :
  forall start,
  fold_left (fun acc xy => N.lor acc (N.lxor (fst xy) (snd xy))) pairs start = 0%N <->
  start = 0%N /\ Forall (fun xy => fst xy = snd xy) pairs.
Proof.
  induction pairs as [|[x y] rest IH]; intros start; cbn [fold_left fst snd].
  - split; [intros ->; split; [reflexivity|constructor] | now intros [-> _]].
  - rewrite IH, N.lor_eq_0_iff. split.
    + intros [[-> Hxy] Hrest]. apply N.lxor_eq in Hxy.
      split; [reflexivity|]. now constructor.
    + intros [-> H]. inversion H as [|? ? Hxy Hrest]; subst.
      cbn [fst snd] in Hxy. subst y. now rewrite N.lxor_nilpotent.
Qed.

Lemma combine_equal (a : str) :
  forall b, length a = length b ->
  Forall (fun xy : N * N => fst xy = snd xy) (combine a b) <-> a = b.
Proof.
  induction a as [|x a IH]; intros [|y b] Hlen; try discriminate.
  - split; [reflexivity|constructor].
  - injection Hlen as Hlen. cbn [combine]. split.
    + intros H. inversion H as [|? ? Hxy Hrest]; subst. cbn [fst snd] in Hxy.
      f_equal; [exact Hxy|]. now apply IH.
    + intros [= -> ->]. constructor; [reflexivity|]. now apply IH.
Qed.

(** [_tscmp] is equality. *)
Lemma tscmp_true_iff (a b : str) : _tscmp a b = true <-> a = b.
Proof.
  unfold _tscmp. destruct (Nat.eqb_spec (length a) (length b)) as [Hlen|Hlen].
  - rewrite N.eqb_eq, fold_lor_zero, combine_equal by exact Hlen. tauto.
  - rewrite N.eqb_eq, fold_lor_zero. split; [intros [[=] _]|congruence].
Qed.

(** [compare_digest] with an ASCII text on its left answers [True] for that
    very text only: any other candidate is answered [False] or, when it is
    not ASCII, refused. *)
Lemma compare_digest_true_iff (expected candidate : str) :
  is_ascii expected = true ->
  (compare_digest expected candidate = Ok true <-> candidate = expected).
Proof.
  intros Ha. unfold compare_digest. rewrite Ha. cbn [andb]. split.
  - destruct (is_ascii candidate); [|discriminate].
    intros [= H]. symmetry. now apply tscmp_true_iff.
  - intros ->. rewrite Ha. f_equal. now apply tscmp_true_iff.
Qed.

Lemma compare_digest_ascii (expected candidate : str) :
  is_ascii expected = true -> is_ascii candidate = true ->
  compare_digest expected candidate =
    Ok (if list_eq_dec N.eq_dec expected candidate then true else false).
Proof.
  intros Ha Hb. unfold compare_digest. rewrite Ha, Hb. cbn [andb]. f_equal.
  destruct (list_eq_dec N.eq_dec expected candidate) as [->|Hne].
  - now apply tscmp_true_iff.
  - destruct (_tscmp expected candidate) eqn:E; [|reflexivity].
    apply tscmp_true_iff in E. contradiction.
Qed.

Lemma compare_digest_err (expected candidate : str) (e : exn) :
  compare_digest expected candidate = Err e -> exists what, e = TypeError what.
Proof.
  unfold compare_digest. destruct (is_ascii expected && is_ascii candidate);
    [discriminate|]. intros [= <-]. eauto.
Qed.

Lemma Qltb_lt (x y : Q) : Qltb x y = true <-> (x < y)%Q.
Proof.
  unfold Qltb. rewrite negb_true_iff. split.
  - intros H. apply Qnot_le_lt. intros Hle.
    apply Qle_bool_iff in Hle. congruence.
  - intros H. destruct (Qle_bool y x) eqn:E; [|reflexivity].
    apply Qle_bool_iff in E. exfalso. exact (Qlt_not_le _ _ H E).
Qed.

Lemma Qltb_ge (x y : Q) : Qltb x y = false <-> (y <= x)%Q.
Proof.
  unfold Qltb. rewrite negb_false_iff. apply Qle_bool_iff.
Qed.

(** ** [_build_notification] and [construct_notification] *)

Section Verification.

Variable json_loads : str -> result pyval.
Variable datetime : Type.
Variable parse_datetime : pyval -> result datetime.
Variable SigningToleranceSeconds : Z.
Variable time_time : Q.

Lemma build_event_ok (event : pyval) (e : Event datetime) :
  build_event parse_datetime event = Ok e <-> event_of parse_datetime event e.
Proof.
  unfold build_event, event_of. split.
  - intros H.
    apply bind_ok in H as (at_json & H1 & H). apply bind_ok in H as (at_value & H2 & H).
    apply bind_ok in H as (name_value & H3 & H). apply bind_ok in H as (data_json & H4 & H).
    apply bind_ok in H as (data_value & H5 & H). injection H as <-.
    cbn [at_ name data]. rewrite H1, H3, H4. cbn [bind]. now rewrite H2, H5.
  - intros (Ha & Hn & Hd).
    apply bind_ok in Ha as (at_json & H1 & H2).
    apply bind_ok in Hd as (data_json & H4 & H5).
    rewrite H1. cbn [bind]. rewrite H2. cbn [bind]. rewrite Hn. cbn [bind].
    rewrite H4. cbn [bind]. rewrite H5. cbn [bind]. now destruct e.
Qed.

Lemma event_ok_iff (event : pyval) :
  event_ok parse_datetime event = true <->
  exists e, build_event parse_datetime event = Ok e.
Proof.
  unfold event_ok, build_event. split.
  - intros H. apply andb_true_iff in H as [H Hd]. apply andb_true_iff in H as [Ha Hn].
    destruct (getitem event (py "at")) as [at_json|]; [|discriminate].
    cbn [bind] in *. destruct (parse_datetime at_json) as [at_value|]; [|discriminate].
    destruct (getitem event (py "name")) as [name_value|]; [|discriminate].
    destruct (getitem event (py "data")) as [data_json|]; [|discriminate].
    cbn [bind] in *. destruct (b64decode data_json) as [data_value|]; [|discriminate].
    cbn [bind]. eauto.
  - intros [e H].
    destruct (getitem event (py "at")) as [at_json|]; [|discriminate].
    cbn [bind] in *. destruct (parse_datetime at_json) as [at_value|]; [|discriminate].
    cbn [bind] in *.
    destruct (getitem event (py "name")) as [name_value|]; [|discriminate].
    cbn [bind] in *.
    destruct (getitem event (py "data")) as [data_json|]; [|discriminate].
    cbn [bind] in *. destruct (b64decode data_json) as [data_value|]; [|discriminate].
    reflexivity.
Qed.

(** The loop over the events appends one event for each item, in order. *)
Lemma build_events_ok (pending : list pyval) :
  forall acc evs,
  build_events parse_datetime pending acc = Ok evs <->
  exists built, evs = acc ++ built /\ Forall2 (event_of parse_datetime) pending built.
Proof.
  induction pending as [|event rest IH]; intros acc evs; cbn [build_events].
  - split.
    + intros [= <-]. exists []. split; [now rewrite app_nil_r|constructor].
    + intros (built & -> & H). inversion H. now rewrite app_nil_r.
  - split.
    + intros H. apply bind_ok in H as (e & He & H).
      apply IH in H as (built & -> & Hb). exists (e :: built).
      split; [now rewrite <- app_assoc|].
      constructor; [now apply build_event_ok|exact Hb].
    + intros (built & -> & H). inversion H as [|? e ? built' He Hb]; subst.
      apply build_event_ok in He. rewrite He. cbn [bind].
      apply IH. exists built'. split; [now rewrite <- app_assoc|exact Hb].
Qed.

Lemma build_events_total (pending : list pyval) :
  forallb (event_ok parse_datetime) pending = true <->
  exists built, Forall2 (event_of parse_datetime) pending built.
Proof.
  induction pending as [|event rest IH]; cbn [forallb].
  - split; [intros _; exists []; constructor|reflexivity].
  - rewrite andb_true_iff, IH, event_ok_iff. split.
    + intros [[e He] [built Hb]]. exists (e :: built).
      constructor; [now apply build_event_ok|exact Hb].
    + intros [built H]. inversion H as [|? e ? built' He Hb]; subst.
      split; [exists e; now apply build_event_ok|now exists built'].
Qed.

(** What a notification that is returned holds. *)
Lemma build_notification_ok (payload : str) (n : Notification datetime) :
  _build_notification json_loads parse_datetime payload = Ok n <->
  exists notification_json events_json pending,
    json_loads payload = Ok notification_json /\
    getitem notification_json (py "events") = Ok events_json /\
    iterate events_json = Ok pending /\
    Forall2 (event_of parse_datetime) pending (events n) /\
    getitem notification_json (py "trigger_name") = Ok (trigger_name n) /\
    getitem notification_json (py "entity_id") = Ok (entity_id n).
Proof.
  unfold _build_notification, build_notification_body. split.
  - intros H.
    destruct (json_loads payload) as [obj|] eqn:Ej; [|discriminate]. cbn [bind] in H.
    destruct (getitem obj (py "events")) as [events_json|] eqn:Ee; [|discriminate].
    cbn [bind] in H.
    destruct (iterate events_json) as [pending|] eqn:Ei; [|discriminate].
    cbn [bind] in H.
    destruct (build_events parse_datetime pending []) as [evs|] eqn:Eb; [|discriminate].
    cbn [bind] in H.
    destruct (getitem obj (py "trigger_name")) as [trigger|] eqn:Et; [|discriminate].
    cbn [bind] in H.
    destruct (getitem obj (py "entity_id")) as [entity|] eqn:Ei'; [|discriminate].
    cbn [bind] in H. injection H as <-. cbn [events trigger_name entity_id].
    apply build_events_ok in Eb as (built & -> & Hb).
    exists obj, events_json, pending. repeat split; assumption.
  - intros (obj & events_json & pending & Hj & He & Hi & Hb & Ht & Hid).
    rewrite Hj. cbn [bind]. rewrite He. cbn [bind]. rewrite Hi. cbn [bind].
    assert (build_events parse_datetime pending [] = Ok (events n)) as ->.
    { apply build_events_ok. now exists (events n). }
    cbn [bind]. rewrite Ht. cbn [bind]. rewrite Hid. cbn [bind]. now destruct n.
Qed.

Lemma build_notification_err (payload : str) (e : exn) :
  _build_notification json_loads parse_datetime payload = Err e <->
  exists cause, e = InvalidPayloadFormatError cause /\
    build_notification_body json_loads parse_datetime payload = Err cause.
Proof.
  unfold _build_notification.
  destruct (build_notification_body json_loads parse_datetime payload) as [n|cause].
  - split; [discriminate|]. now intros (cause & _ & [=]).
  - split.
    + intros [= <-]. now exists cause.
    + now intros (cause' & -> & [= ->]).
Qed.

Lemma payload_ok_iff (payload : str) :
  payload_ok json_loads parse_datetime payload <->
  exists n, _build_notification json_loads parse_datetime payload = Ok n.
Proof.
  unfold payload_ok. split.
  - intros (obj & events_json & pending & Hj & He & Hi & Hb & Ht & Hid).
    apply build_events_total in Hb as [built Hb].
    destruct (getitem obj (py "trigger_name")) as [trigger|] eqn:Et; [|discriminate].
    destruct (getitem obj (py "entity_id")) as [entity|] eqn:Ee; [|discriminate].
    exists (mkNotification trigger entity built). apply build_notification_ok.
    exists obj, events_json, pending. repeat split; assumption.
  - intros [n H]. apply build_notification_ok in H
      as (obj & events_json & pending & Hj & He & Hi & Hb & Ht & Hid).
    exists obj, events_json, pending. rewrite Ht, Hid.
    repeat split; try assumption. apply build_events_total. now exists (events n).
Qed.

(** [a2b_base64] does not look at a character outside the alphabet. *)
Lemma a2b_base64_skips (text : bytes) :
  forall quad_pos leftchar pads bin_data,
  a2b_base64 text quad_pos leftchar pads bin_data =
  a2b_base64 (filter base64_char text) quad_pos leftchar pads bin_data.
Proof.
  induction text as [|c rest IH]; intros quad_pos leftchar pads bin_data;
    [reflexivity|].
  cbn [filter]. unfold base64_char, in_alphabet.
  destruct (N.eqb c (chr "=")) eqn:Epad.
  - rewrite orb_true_r. cbn [a2b_base64]. rewrite Epad.
    repeat match goal with |- context [if ?b then _ else _] => destruct b end;
      try reflexivity; apply IH.
  - rewrite orb_false_r. destruct (table_a2b_base64 c) as [v|] eqn:Et.
    + cbn [a2b_base64]. rewrite Epad, Et.
      repeat match goal with |- context [if ?b then _ else _] => destruct b end;
        apply IH.
    + cbn [a2b_base64]. rewrite Epad, Et. apply IH.
Qed.

Lemma filter_is_ascii (f : N -> bool) (text : str) :
  is_ascii text = true -> is_ascii (filter f text) = true.
Proof.
  unfold is_ascii. induction text as [|c rest IH]; [reflexivity|].
  cbn [forallb filter]. intros H. apply andb_true_iff in H as [Hc Hr].
  destruct (f c); cbn [forallb]; [rewrite Hc|]; now apply IH.
Qed.

(** The loop over the candidates answers with [_build_notification] at the
    first candidate that is the expected signature. *)
Lemma check_signatures_ok (expected payload : str) (candidates : list str)
    (n : Notification datetime) :
  is_ascii expected = true ->
  check_signatures json_loads parse_datetime expected candidates payload = Ok n ->
  In expected candidates /\
  _build_notification json_loads parse_datetime payload = Ok n.
Proof.
  intros Ha. induction candidates as [|candidate rest IH]; cbn [check_signatures].
  - discriminate.
  - intros H. apply bind_ok in H as (same & Hc & H). destruct same.
    + apply compare_digest_true_iff in Hc; [|exact Ha]. subst candidate.
      split; [now left|exact H].
    + destruct (IH H) as [Hin Hb]. split; [now right|exact Hb].
Qed.

Lemma check_signatures_match (expected payload : str) (before after : list str) :
  is_ascii expected = true ->
  forallb is_ascii before = true ->
  check_signatures json_loads parse_datetime expected (before ++ expected :: after) payload =
  _build_notification json_loads parse_datetime payload.
Proof.
  intros Ha. induction before as [|candidate rest IH]; cbn [app check_signatures forallb].
  - intros _. rewrite (proj2 (compare_digest_true_iff expected expected Ha) eq_refl).
    reflexivity.
  - intros H. apply andb_true_iff in H as [Hc Hr].
    rewrite (compare_digest_ascii _ _ Ha Hc). cbn [bind].
    destruct (list_eq_dec N.eq_dec expected candidate); [reflexivity|now apply IH].
Qed.

Lemma check_signatures_no_match (expected payload : str) (candidates : list str) :
  is_ascii expected = true ->
  forallb is_ascii candidates = true ->
  ~ In expected candidates ->
  check_signatures json_loads parse_datetime expected candidates payload =
  Err InvalidSignatureError.
Proof.
  intros Ha. induction candidates as [|candidate rest IH]; cbn [check_signatures forallb].
  - reflexivity.
  - intros H Hin. apply andb_true_iff in H as [Hc Hr].
    rewrite (compare_digest_ascii _ _ Ha Hc). cbn [bind].
    destruct (list_eq_dec N.eq_dec expected candidate) as [->|Hne].
    + exfalso. apply Hin. now left.
    + apply IH; [exact Hr|]. intros H. apply Hin. now right.
Qed.

Lemma check_signatures_err (expected payload : str) (candidates : list str) (e : exn) :
  check_signatures json_loads parse_datetime expected candidates payload = Err e ->
  e = InvalidSignatureError \/ (exists what, e = TypeError what) \/
  (exists cause, e = InvalidPayloadFormatError cause).
Proof.
  induction candidates as [|candidate rest IH]; cbn [check_signatures].
  - intros [= <-]. now left.
  - intros H. apply bind_err in H as [H|(same & _ & H)].
    + right. left. eapply compare_digest_err, H.
    + destruct same; [|now apply IH].
      apply build_notification_err in H as (cause & -> & _). right. right. eauto.
Qed.

Lemma check_tolerance_expired (sh : SignedHeader) (e : exn) :
  check_tolerance SigningToleranceSeconds time_time sh = Err e ->
  (e = SignatureExpiredError /\ SigningToleranceSeconds <> 0%Z /\
   exists t, timestamp sh = Some t /\
     (inject_Z t < time_time - inject_Z SigningToleranceSeconds)%Q) \/
  (timestamp sh = None /\ exists what, e = TypeError what).
Proof.
  unfold check_tolerance.
  destruct (Z.eqb_spec SigningToleranceSeconds 0) as [|Hne]; [discriminate|].
  destruct (timestamp sh) as [t|].
  - destruct (Qltb _ _) eqn:E; [|discriminate]. intros [= <-].
    left. repeat split; [exact Hne|]. exists t. split; [reflexivity|].
    now apply Qltb_lt.
  - intros [= <-]. right. split; [reflexivity|]. eauto.
Qed.

Lemma check_tolerance_passes (sh : SignedHeader) (t : Z) :
  timestamp sh = Some t ->
  (check_tolerance SigningToleranceSeconds time_time sh = Ok tt <->
   SigningToleranceSeconds = 0%Z \/
   (time_time - inject_Z SigningToleranceSeconds <= inject_Z t)%Q).
Proof.
  intros Ht. unfold check_tolerance. rewrite Ht.
  destruct (Z.eqb_spec SigningToleranceSeconds 0) as [Hz|Hne].
  - split; [now left|reflexivity].
  - destruct (Qltb _ _) eqn:E.
    + split; [discriminate|]. intros [Hz|Hle]; [contradiction|].
      apply Qltb_lt in E. exfalso. exact (Qlt_not_le _ _ E Hle).
    + split; [|reflexivity]. intros _. right. now apply Qltb_ge.
Qed.

(** The steps of [construct_notification] before a notification is returned. *)
Lemma construct_notification_ok (payload header secret : str)
    (n : Notification datetime) :
  construct_notification json_loads parse_datetime SigningToleranceSeconds time_time
    payload header secret = Ok n ->
  exists sh t expected,
    _parse_header header = Ok sh /\
    timestamp sh = Some t /\
    (SigningToleranceSeconds = 0%Z \/
     (time_time - inject_Z SigningToleranceSeconds <= inject_Z t)%Q) /\
    _compute_signature secret (Some t) payload = Ok expected /\
    In expected (signatures sh) /\
    _build_notification json_loads parse_datetime payload = Ok n.
Proof.
  unfold construct_notification. intros H.
  apply bind_ok in H as (sh & Hp & H). apply bind_ok in H as ([] & Hg & H).
  apply bind_ok in H as (expected & Hs & H).
  destruct (parse_header_has_timestamp _ Hp) as [t Ht].
  pose proof (compute_signature_lower_hex _ _ _ Hs) as [_ Hhex].
  apply lower_hex_is_ascii in Hhex.
  apply check_signatures_ok in H as [Hin Hb]; [|exact Hhex].
  exists sh, t, expected. rewrite Ht in Hs.
  repeat split; try assumption. now apply (check_tolerance_passes _ Ht).
Qed.


(** X2.  When every candidate is ASCII text and none is the expected signature,
    the call ends with [InvalidSignatureError]. *)
Theorem no_candidate_matches (payload header secret : str) (sh : SignedHeader)
    (expected : str) :
  _parse_header header = Ok sh ->
  check_tolerance SigningToleranceSeconds time_time sh = Ok tt ->
  _compute_signature secret (timestamp sh) payload = Ok expected ->
  forallb is_ascii (signatures sh) = true ->
  ~ In expected (signatures sh) ->
  construct_notification json_loads parse_datetime SigningToleranceSeconds time_time
    payload header secret = Err InvalidSignatureError.
Proof.
  intros Hp Hg Hs Ha Hin. unfold construct_notification.
  rewrite Hp. cbn [bind]. rewrite Hg. cbn [bind]. rewrite Hs. cbn [bind].
  apply check_signatures_no_match; try assumption.
  apply lower_hex_is_ascii.
  exact (proj2 (compute_signature_lower_hex _ _ _ Hs)).
Qed.




(** C9, as the code has it.  The notification that is returned has one event
    for each item that going through [events] gives, so it has no events
    exactly when there are no items: nothing asks for one event at least. *)
Theorem notification_events_follow_payload (payload header secret : str)
    (n : Notification datetime) :
  construct_notification json_loads parse_datetime SigningToleranceSeconds time_time
    payload header secret = Ok n ->
  exists notification_json events_json pending,
    json_loads payload = Ok notification_json /\
    getitem notification_json (py "events") = Ok events_json /\
    iterate events_json = Ok pending /\
    length (events n) = length pending /\
    (events n = [] <-> pending = []).
Proof.
  intros H. apply construct_notification_ok in H
    as (sh & t & expected & _ & _ & _ & _ & _ & Hb).
  apply build_notification_ok in Hb
    as (obj & events_json & pending & Hj & He & Hi & Hf & _ & _).
  exists obj, events_json, pending. repeat split; try assumption.
  - symmetry. eapply Forall2_length, Hf.
  - intros E. rewrite E in Hf. now inversion Hf.
  - intros E. rewrite E in Hf. now inversion Hf.
Qed.

End Verification.

(** ** The deliveries of the examples *)

(** [test_construct_notification_actual_data]: the delivery of a real server,
    with the tolerance set to 0 as the test sets it. *)
Lemma actual_delivery :
  construct_notification example_json_loads example_parse_datetime 0 0
    actual_payload actual_header actual_secret =
  Ok (mkNotification (PStr (py "trigger_now")) (PStr (py "michael"))
        [mkEvent 1602251237321618%Z (PStr (py "trigger_now")) (py "youwin@vbang.dk")]).
Proof. vm_compute. reflexivity. Qed.

Lemma actual_header_parsed :
  _parse_header actual_header =
  Ok (mkSignedHeader (Some 1602251283%Z)
        [py "21b9339ced8c9b178f3f9bf7a29a212ec832443e8e2c05fd2dc7ef2fdaa70559"]).
Proof. vm_compute. reflexivity. Qed.

Lemma actual_signature :
  _compute_signature actual_secret (Some 1602251283%Z) actual_payload =
  Ok (py "21b9339ced8c9b178f3f9bf7a29a212ec832443e8e2c05fd2dc7ef2fdaa70559").
Proof. vm_compute. reflexivity. Qed.

(** A delivery without events, seven seconds after it was signed. *)
Lemma no_events_delivery :
  construct_notification example_json_loads example_parse_datetime
    SigningToleranceSeconds_default (1602251290 # 1)
    no_events_payload
    (signed_header_for (py "top secret") 1602251283 no_events_payload)
    (py "top secret") =
  Ok (mkNotification (PStr (py "trigger_now")) (PStr (py "michael")) []).
Proof. vm_compute. reflexivity. Qed.

Lemma bad_data_built :
  _build_notification example_json_loads example_parse_datetime bad_data_payload =
  Ok (mkNotification (PStr (py "trigger_now")) (PStr (py "michael"))
        [mkEvent 1602251237321618%Z (PStr (py "trigger_now")) []]).
Proof. vm_compute. reflexivity. Qed.

(** The actual delivery, checked a week after it was signed. *)
Lemma actual_delivery_expired :
  construct_notification example_json_loads example_parse_datetime
    SigningToleranceSeconds_default (1602856083 # 1)
    actual_payload actual_header actual_secret = Err SignatureExpiredError.
Proof. vm_compute. reflexivity. Qed.

(** C1 at a candidate that is not ASCII text.  The header is parsed, its
    timestamp is within the tolerance, and its one candidate is not the
    expected signature; the call ends with the [TypeError] of
    [hmac.compare_digest] and not with [InvalidSignatureError]. *)
Theorem non_ascii_candidate_raises_TypeError
    (json_loads : str -> result pyval) (datetime : Type)
    (parse_datetime : pyval -> result datetime) :
  _parse_header (py "t=1602251283,v1=" ++ [233%N]) =
    Ok (mkSignedHeader (Some 1602251283%Z) [[233%N]]) /\
  check_tolerance SigningToleranceSeconds_default (1602251290 # 1)
    (mkSignedHeader (Some 1602251283%Z) [[233%N]]) = Ok tt /\
  _compute_signature actual_secret (Some 1602251283%Z) actual_payload <> Ok [233%N] /\
  construct_notification json_loads parse_datetime
    SigningToleranceSeconds_default (1602251290 # 1)
    actual_payload (py "t=1602251283,v1=" ++ [233%N]) actual_secret =
  Err (TypeError "comparing strings with non-ASCII characters is not supported").
Proof.
  split; [vm_compute; reflexivity|].
  split; [vm_compute; reflexivity|].
  split; [rewrite actual_signature; discriminate|].
  vm_compute. reflexivity.
Qed.





(** C9, as the spec has it, fails: a delivery whose [events] is empty is
    verified and comes back as a notification without events. *)
Lemma empty_events_yield_notification :
  getitem no_events_json (py "events") = Ok (PList []) /\
  construct_notification example_json_loads example_parse_datetime
    SigningToleranceSeconds_default (1602251290 # 1)
    no_events_payload
    (signed_header_for (py "top secret") 1602251283 no_events_payload)
    (py "top secret") =
  Ok (mkNotification (PStr (py "trigger_now")) (PStr (py "michael")) []).
Proof. split; [reflexivity|exact no_events_delivery]. Qed.

Lemma notification_events_follow_payload_witness :
  exists notification_json events_json pending,
    example_json_loads no_events_payload = Ok notification_json /\
    getitem notification_json (py "events") = Ok events_json /\
    iterate events_json = Ok pending /\
    length (events (mkNotification (datetime := Z) (PStr (py "trigger_now"))
                      (PStr (py "michael")) [])) = length pending /\
    (events (mkNotification (datetime := Z) (PStr (py "trigger_now"))
               (PStr (py "michael")) []) = [] <-> pending = []).
Proof.
  exact (notification_events_follow_payload example_json_loads example_parse_datetime
           SigningToleranceSeconds_default (1602251290 # 1)
           no_events_payload
           (signed_header_for (py "top secret") 1602251283 no_events_payload)
           (py "top secret") no_events_delivery).
Defined.


Lemma no_candidate_matches_witness :
  construct_notification example_json_loads example_parse_datetime 0 0
    actual_payload (py "t=1602251283,v1=invalid") actual_secret =
  Err InvalidSignatureError.
Proof.
  apply (no_candidate_matches example_json_loads example_parse_datetime 0 0
           actual_payload (py "t=1602251283,v1=invalid") actual_secret
           (sh := mkSignedHeader (Some 1602251283%Z) [py "invalid"])
           (expected := py "21b9339ced8c9b178f3f9bf7a29a212ec832443e8e2c05fd2dc7ef2fdaa70559")).
  - reflexivity.
  - reflexivity.
  - exact actual_signature.
  - reflexivity.
  - intros [H|[]]. discriminate H.
Defined.
(** ** [str(n)] and [int(s)] *)

Lemma uint_chars_digits (d : Decimal.uint) :
  forallb is_digit (py (NilEmpty.string_of_uint d)) = true.
Proof. induction d; cbn; [reflexivity | assumption ..]. Qed.

Lemma py_String (a : ascii) (s : string) : py (String a s) = N_of_ascii a :: py s.
Proof. reflexivity. Qed.

Lemma uint_chars_value (d : Decimal.uint) :
  forall acc : positive,
  fold_left (fun v c => 10 * v + Z.of_N (c - chr "0"))%Z
    (py (NilEmpty.string_of_uint d)) (Z.pos acc) = Z.pos (Pos.of_uint_acc d acc).
Proof.
  induction d; intros acc; [reflexivity|..];
    cbn [NilEmpty.string_of_uint Pos.of_uint_acc]; rewrite py_String;
    cbn [fold_left];
    match goal with
    | |- context [Z.of_N (?c - chr "0")] =>
        let k := eval vm_compute in (Z.of_N (c - chr "0")) in
        change (Z.of_N (c - chr "0")) with k
    end;
    rewrite <- IHd; f_equal; lia.
Qed.

Lemma uint_chars_value_0 (d : Decimal.uint) :
  decimal_value (py (NilEmpty.string_of_uint d)) = Z.of_N (Pos.of_uint d).
Proof.
  unfold decimal_value.
  induction d; [reflexivity|..];
    cbn [NilEmpty.string_of_uint Pos.of_uint]; rewrite py_String;
    cbn [fold_left];
    match goal with
    | |- context [Z.of_N (?c - chr "0")] =>
        let k := eval vm_compute in (Z.of_N (c - chr "0")) in
        change (Z.of_N (c - chr "0")) with k
    end;
    [exact IHd | cbn [Z.of_N]; rewrite <- uint_chars_value; reflexivity ..].
Qed.

Lemma skip_space_digit (c : N) (rest : str) :
  is_digit c = true -> skip_space (c :: rest) = c :: rest.
Proof.
  intros H. cbn [skip_space]. now rewrite (proj1 (proj2 (digit_facts _ H))).
Qed.

(** A numeral in canonical form: an optional minus sign and digits. *)
Lemma int_signed_digits (negative : bool) (digits : str) :
  digits <> [] -> forallb is_digit digits = true ->
  (length digits <= 4300)%nat ->
  int ((if negative then [chr "-"] else []) ++ digits) =
  Ok ((if negative then -1 else 1) * decimal_value digits)%Z.
Proof.
  intros Hne Hd Hlen.
  assert (map transform_decimal_and_space digits = digits) as Hmap.
  { clear Hne Hlen. induction digits as [|c rest IH]; [reflexivity|].
    cbn [forallb] in Hd. apply andb_true_iff in Hd as [Hc Hr].
    cbn [map]. now rewrite (proj1 (digit_facts _ Hc)), (IH Hr). }
  destruct digits as [|c rest]; [congruence|].
  pose proof Hd as Hd'. cbn [forallb] in Hd'. apply andb_true_iff in Hd' as [Hc _].
  destruct (digit_facts _ Hc) as (_ & Hs & Hplus & Hminus & Hus).
  assert ((int_max_str_digits <? 0 + N.of_nat (length (c :: rest)))%N = false) as Hmax.
  { apply N.ltb_ge. unfold int_max_str_digits. lia. }
  assert ((0 + N.of_nat (length (c :: rest)) =? 0)%N = false) as Hzero.
  { apply N.eqb_neq. cbn [length]. lia. }
  unfold int. rewrite map_app, Hmap. destruct negative; cbn [app map].
  - change (transform_decimal_and_space (chr "-")) with (chr "-").
    change (skip_space (chr "-" :: c :: rest)) with (chr "-" :: c :: rest).
    cbv iota beta. change (N.eqb (chr "-") (chr "+")) with false.
    change (N.eqb (chr "-") (chr "-")) with true. cbv iota beta.
    rewrite Hus, (scan_digits_all _ Hd), Hmax, Hzero.
    cbn [skip_space is_empty]. reflexivity.
  - rewrite (skip_space_digit _ _ Hc). cbv iota beta. rewrite Hplus, Hminus.
    cbv iota beta.
    rewrite Hus, (scan_digits_all _ Hd), Hmax, Hzero.
    cbn [skip_space is_empty]. reflexivity.
Qed.

Lemma str_of_int_shape (t : Z) :
  exists digits,
    str_of_int t = (if (t <? 0)%Z then [chr "-"] else []) ++ digits /\
    digits <> [] /\ forallb is_digit digits = true /\
    decimal_value digits = Z.abs t /\
    str_of_int (Z.abs t) = digits.
Proof.
  assert (forall p, py (NilEmpty.string_of_uint (Pos.to_uint p)) <> []) as Hnil.
  { intros p H. pose proof (DecimalPos.Unsigned.to_uint_nonnil p) as Hp.
    destruct (Pos.to_uint p); try discriminate. now apply Hp. }
  assert (forall p, NilZero.string_of_uint (Pos.to_uint p) =
                    NilEmpty.string_of_uint (Pos.to_uint p)) as Hz.
  { intros p. pose proof (DecimalPos.Unsigned.to_uint_nonnil p) as Hp.
    destruct (Pos.to_uint p); try reflexivity. now destruct Hp. }
  destruct t as [|p|p].
  - exists (py "0"). repeat split; try reflexivity. discriminate.
  - exists (py (NilEmpty.string_of_uint (Pos.to_uint p))).
    unfold str_of_int. cbn [Z.to_int Z.abs NilZero.string_of_int Z.ltb Z.compare app].
    rewrite Hz. repeat split; try apply Hnil; try apply uint_chars_digits.
    now rewrite uint_chars_value_0, DecimalPos.Unsigned.of_to.
  - exists (py (NilEmpty.string_of_uint (Pos.to_uint p))).
    unfold str_of_int. cbn [Z.to_int Z.abs NilZero.string_of_int Z.ltb Z.compare app].
    rewrite Hz. repeat split; try apply Hnil; try apply uint_chars_digits.
    now rewrite uint_chars_value_0, DecimalPos.Unsigned.of_to.
Qed.

(** [int] reads back what [str] writes, for every integer whose numeral
    has at most 4300 digits. *)
Lemma int_of_str_of_int (t : Z) :
  (length (str_of_int (Z.abs t)) <= 4300)%nat ->
  int (str_of_int t) = Ok t.
Proof.
  intros Hlen.
  destruct (str_of_int_shape t) as (digits & -> & Hne & Hd & Hv & Habs).
  rewrite Habs in Hlen.
  rewrite (int_signed_digits ((t <? 0)%Z) Hne Hd Hlen), Hv. f_equal.
  destruct (Z.ltb_spec t 0); lia.
Qed.

(** ** The header that a sender writes *)

Lemma split_no_separator (sep : N) (s : str) :
  ~ In sep s -> split sep s = [s].
Proof.
  induction s as [|c rest IH]; intros H; [reflexivity|].
  cbn [split]. destruct (N.eqb_spec c sep) as [->|_].
  - exfalso. apply H. now left.
  - rewrite IH; [reflexivity|]. intros Hin. apply H. now right.
Qed.

Lemma split_at_separator (sep : N) (a b : str) :
  ~ In sep a -> split sep (a ++ sep :: b) = a :: split sep b.
Proof.
  induction a as [|c rest IH]; intros H; cbn [app split].
  - now rewrite N.eqb_refl.
  - destruct (N.eqb_spec c sep) as [->|_].
    + exfalso. apply H. now left.
    + rewrite IH; [reflexivity|]. intros Hin. apply H. now right.
Qed.

Lemma digits_have_no (sep : N) (digits : str) :
  is_digit sep = false -> forallb is_digit digits = true -> ~ In sep digits.
Proof.
  intros Hsep Hd Hin. rewrite forallb_forall in Hd.
  specialize (Hd _ Hin). congruence.
Qed.

Lemma str_of_int_has_no (sep : N) (t : Z) :
  is_digit sep = false -> sep <> chr "-" -> ~ In sep (str_of_int t).
Proof.
  intros Hsep Hminus.
  destruct (str_of_int_shape t) as (digits & -> & _ & Hd & _ & _).
  intros Hin. apply in_app_or in Hin as [Hin|Hin].
  - destruct (t <? 0)%Z; [|contradiction]. destruct Hin as [<-|[]]. congruence.
  - exact (digits_have_no _ _ Hsep Hd Hin).
Qed.

Lemma signed_header_elements (t : Z) (signature : str) :
  ~ In (chr ",") signature ->
  split (chr ",") (py "t=" ++ str_of_int t ++ py ",v1=" ++ signature) =
  [py "t=" ++ str_of_int t; py "v1=" ++ signature].
Proof.
  intros Hcomma.
  replace (py "t=" ++ str_of_int t ++ py ",v1=" ++ signature)
    with ((py "t=" ++ str_of_int t) ++ chr "," :: py "v1=" ++ signature)
    by now rewrite <- app_assoc.
  rewrite split_at_separator.
  2:{ intros Hin. apply in_app_or in Hin as [[H|[H|[]]]|Hin]; try discriminate H.
      revert Hin. now apply str_of_int_has_no. }
  rewrite split_no_separator; [reflexivity|].
  intros [H|[H|[H|Hin]]]; try discriminate H. contradiction.
Qed.

Lemma signed_header_pairs (t : Z) (signature : str) :
  (length (str_of_int (Z.abs t)) <= 4300)%nat ->
  ~ In (chr "=") signature ->
  parse_pairs [py "t=" ++ str_of_int t; py "v1=" ++ signature]
    (mkSignedHeader None []) =
  Ok (mkSignedHeader (Some t) [signature]).
Proof.
  intros Hlen Hequals. cbn [parse_pairs]. unfold parse_pair at 1.
  change (py "t=" ++ str_of_int t) with (py "t" ++ chr "=" :: str_of_int t).
  rewrite split_at_separator by (intros [H|[]]; discriminate H).
  rewrite split_no_separator by now apply str_of_int_has_no.
  rewrite str_eqb_refl, (int_of_str_of_int _ Hlen). cbn [bind].
  unfold parse_pair.
  change (py "v1=" ++ signature) with (py "v1" ++ chr "=" :: signature).
  rewrite split_at_separator by (intros [H|[H|[]]]; discriminate H).
  rewrite split_no_separator by assumption.
  reflexivity.
Qed.

(** X4.  The header [f't={timestamp},v1={signature}'], as the tests and a
    sender write it, is parsed back to that timestamp and that one
    signature, for every timestamp whose numeral has at most 4300 digits and
    every signature without a comma and without an equals sign. *)
Theorem parse_header_round_trip (t : Z) (signature : str) :
  (length (str_of_int (Z.abs t)) <= 4300)%nat ->
  ~ In (chr ",") signature -> ~ In (chr "=") signature ->
  _parse_header (py "t=" ++ str_of_int t ++ py ",v1=" ++ signature) =
  Ok (mkSignedHeader (Some t) [signature]).
Proof.
  intros Hlen Hcomma Hequals.
  rewrite parse_header_unfold by discriminate.
  now rewrite signed_header_elements, signed_header_pairs.
Qed.

Lemma parse_header_round_trip_witness :
  _parse_header (py "t=" ++ str_of_int 1602251283 ++ py ",v1=" ++ py "haps") =
  Ok (mkSignedHeader (Some 1602251283%Z) [py "haps"]).
Proof.
  apply parse_header_round_trip.
  - change (length (str_of_int (Z.abs 1602251283))) with 10%nat. lia.
  - intros [H|[H|[H|[H|[]]]]]; discriminate H.
  - intros [H|[H|[H|[H|[]]]]]; discriminate H.
Defined.

Lemma lower_hex_has_no (sep : N) (s : str) :
  is_lower_hex sep = false -> forallb is_lower_hex s = true -> ~ In sep s.
Proof.
  intros Hsep Hs Hin. rewrite forallb_forall in Hs.
  specialize (Hs _ Hin). congruence.
Qed.

Section SignedDelivery.

Variable json_loads : str -> result pyval.
Variable datetime : Type.
Variable parse_datetime : pyval -> result datetime.
Variable SigningToleranceSeconds : Z.
Variable time_time : Q.


End SignedDelivery.


(** ** The errors of [_parse_header] and of [construct_notification] *)

(** X6.  [_parse_header] raises nothing but [InvalidHeaderError], with one of
    four reasons, and [empty header] for the empty text and for no other. *)
Theorem parse_header_error_reasons (header : str) :
  (forall e, _parse_header header = Err e ->
     e = InvalidHeaderError "empty header" \/
     e = InvalidHeaderError "invalid format" \/
     e = InvalidHeaderError "invalid timestamp format" \/
     e = InvalidHeaderError "missing fields") /\
  (_parse_header header = Err (InvalidHeaderError "empty header") <-> header = []).
Proof.
  assert (forall elements sh0 e, parse_pairs elements sh0 = Err e ->
            e = InvalidHeaderError "invalid format" \/
            e = InvalidHeaderError "invalid timestamp format") as Hloop.
  { induction elements as [|element rest IH]; intros sh0 e H; cbn [parse_pairs] in H.
    - discriminate.
    - apply bind_err in H as [H|(sh1 & _ & H)].
      + apply parse_pair_err in H as [[_ ->]|(v & _ & _ & ->)]; auto.
      + eapply IH, H. }
  assert (forall e, header <> [] -> _parse_header header = Err e ->
            e = InvalidHeaderError "invalid format" \/
            e = InvalidHeaderError "invalid timestamp format" \/
            e = InvalidHeaderError "missing fields") as Hrest.
  { intros e Hne H. rewrite parse_header_unfold in H by assumption.
    apply bind_err in H as [H|(sh & _ & H)].
    - apply Hloop in H as [->| ->]; auto.
    - destruct (signatures sh), (timestamp sh); try discriminate;
        injection H as <-; auto. }
  split.
  - intros e H. destruct header as [|c rest].
    + injection H as <-. now left.
    + right. apply Hrest; [discriminate|exact H].
  - split.
    + intros H. destruct header as [|c rest]; [reflexivity|].
      apply Hrest in H; [|discriminate]. destruct H as [H|[H|H]]; discriminate H.
    + intros ->. reflexivity.
Qed.

Lemma parse_header_error_reasons_witness :
  InvalidHeaderError "invalid timestamp format" = InvalidHeaderError "empty header" \/
  InvalidHeaderError "invalid timestamp format" = InvalidHeaderError "invalid format" \/
  InvalidHeaderError "invalid timestamp format" =
    InvalidHeaderError "invalid timestamp format" \/
  InvalidHeaderError "invalid timestamp format" = InvalidHeaderError "missing fields".
Proof.
  apply (proj1 (parse_header_error_reasons (py "t=12a,v1=x"))). reflexivity.
Defined.

Lemma utf8_char_ascii (c : N) : (c < 128)%N -> utf8_char c = Some [c].
Proof.
  intros H. unfold utf8_char.
  now rewrite (proj2 (N.ltb_lt c 0x80) H).
Qed.

Lemma encode_utf8_ok_iff (s : str) :
  is_ok (encode_utf8 s) = forallb encodable s.
Proof.
  induction s as [|c rest IH]; [reflexivity|].
  cbn [encode_utf8 forallb]. unfold encodable at 1.
  destruct (utf8_char c); [|reflexivity].
  rewrite <- IH. now destruct (encode_utf8 rest).
Qed.

Lemma encode_utf8_app_ok (a b : str) :
  is_ok (encode_utf8 (a ++ b)) = is_ok (encode_utf8 a) && is_ok (encode_utf8 b).
Proof. now rewrite !encode_utf8_ok_iff, forallb_app. Qed.

Lemma encode_utf8_ascii (s : str) : is_ascii s = true -> encode_utf8 s = Ok s.
Proof.
  unfold is_ascii. induction s as [|c rest IH]; [reflexivity|].
  cbn [forallb encode_utf8]. intros H. apply andb_true_iff in H as [Hc Hr].
  apply N.ltb_lt in Hc. now rewrite (utf8_char_ascii Hc), (IH Hr).
Qed.

Lemma str_of_int_ascii (t : Z) : is_ascii (str_of_int t) = true.
Proof.
  destruct (str_of_int_shape t) as (digits & -> & _ & Hd & _ & _).
  unfold is_ascii. rewrite forallb_app. apply andb_true_iff. split.
  - now destruct (t <? 0)%Z.
  - clear - Hd. induction digits as [|c rest IH]; [reflexivity|].
    cbn [forallb] in *. apply andb_true_iff in Hd as [Hc Hr].
    rewrite (IH Hr), andb_true_r. unfold is_digit in Hc.
    change (chr "0") with 48%N in Hc. change (chr "9") with 57%N in Hc.
    apply andb_true_iff in Hc as [_ Hc]. apply N.leb_le in Hc.
    apply N.ltb_lt. lia.
Qed.

Lemma format_timestamp_encodes (t : option Z) :
  is_ok (encode_utf8 (format_timestamp t)) = true.
Proof.
  destruct t as [n|]; [|reflexivity]. cbn [format_timestamp].
  now rewrite (encode_utf8_ascii _ (str_of_int_ascii n)).
Qed.



Section Failures.

Variable json_loads : str -> result pyval.
Variable datetime : Type.
Variable parse_datetime : pyval -> result datetime.
Variable SigningToleranceSeconds : Z.
Variable time_time : Q.

Lemma check_signatures_TypeError (expected payload : str) (candidates : list str)
    (what : string) :
  is_ascii expected = true ->
  check_signatures json_loads parse_datetime expected candidates payload =
    Err (TypeError what) ->
  exists candidate, In candidate candidates /\ is_ascii candidate = false.
Proof.
  intros Ha. induction candidates as [|candidate rest IH]; cbn [check_signatures].
  - discriminate.
  - intros H. apply bind_err in H as [H|(same & _ & H)].
    + exists candidate. split; [now left|].
      unfold compare_digest in H. rewrite Ha in H. cbn [andb] in H.
      now destruct (is_ascii candidate).
    + destruct same.
      * apply build_notification_err in H as (cause & [=] & _).
      * destruct (IH H) as (c & Hin & Hc). exists c. split; [now right|exact Hc].
Qed.


(** X9.  A payload whose signature is not verified is not decoded: when no
    candidate of the header is the expected signature, the call fails, and it
    fails the same way whatever [json.loads] and [parse_datetime] would make
    of the payload. *)
Theorem unverified_payload_is_not_decoded
    (json_loads' : str -> result pyval) (parse_datetime' : pyval -> result datetime)
    (payload header secret : str) :
  (forall sh expected,
     _parse_header header = Ok sh ->
     _compute_signature secret (timestamp sh) payload = Ok expected ->
     ~ In expected (signatures sh)) ->
  (exists e,
     construct_notification json_loads parse_datetime SigningToleranceSeconds time_time
       payload header secret = Err e) /\
  construct_notification json_loads parse_datetime SigningToleranceSeconds time_time
    payload header secret =
  construct_notification json_loads' parse_datetime' SigningToleranceSeconds time_time
    payload header secret.
Proof.
  intros Hno. unfold construct_notification.
  destruct (_parse_header header) as [sh|e] eqn:Hp; [|split; [now exists e|reflexivity]].
  cbn [bind].
  destruct (check_tolerance SigningToleranceSeconds time_time sh) as [[]|e];
    [|split; [now exists e|reflexivity]].
  cbn [bind].
  destruct (_compute_signature secret (timestamp sh) payload) as [expected|e] eqn:Hs;
    [|split; [now exists e|reflexivity]].
  cbn [bind]. specialize (Hno sh expected eq_refl Hs).
  pose proof (lower_hex_is_ascii _ (proj2 (compute_signature_lower_hex _ _ _ Hs))) as Ha.
  induction (signatures sh) as [|candidate rest IH]; cbn [check_signatures].
  - split; [now exists InvalidSignatureError|reflexivity].
  - destruct (compare_digest expected candidate) as [same|e] eqn:Ec;
      [|split; [now exists e|reflexivity]].
    cbn [bind]. destruct same.
    + apply compare_digest_true_iff in Ec; [|exact Ha].
      exfalso. apply Hno. now left.
    + apply IH. intros Hin. apply Hno. now right.
Qed.

Lemma construct_notification_expired (payload header secret : str) (now : Q) :
  construct_notification json_loads parse_datetime SigningToleranceSeconds now
    payload header secret = Err SignatureExpiredError <->
  exists sh, _parse_header header = Ok sh /\
    check_tolerance SigningToleranceSeconds now sh = Err SignatureExpiredError.
Proof.
  unfold construct_notification. split.
  - intros H. apply bind_err in H as [H|(sh & Hp & H)].
    { apply parse_header_err in H as [reason [=]]. }
    exists sh. split; [exact Hp|].
    apply bind_err in H as [H|([] & _ & H)]; [exact H|].
    apply bind_err in H as [H|(expected & _ & H)].
    { apply compute_signature_err in H as [what [=]]. }
    apply check_signatures_err in H as [[=]|[[what [=]]|[cause [=]]]].
  - intros (sh & -> & H). cbn [bind]. now rewrite H.
Qed.


(** X11.  The events are decoded in order and the first one that fails ends
    the call: the exception wrapped is that of the first failing event,
    whatever the events after it are, and whether or not [trigger_name] and
    [entity_id] are there. *)
Theorem first_failing_event_is_reported (payload : str)
    (notification_json events_json : pyval) (good rest : list pyval) (bad : pyval)
    (cause : exn) :
  json_loads payload = Ok notification_json ->
  getitem notification_json (py "events") = Ok events_json ->
  iterate events_json = Ok (good ++ bad :: rest) ->
  forallb (event_ok parse_datetime) good = true ->
  build_event parse_datetime bad = Err cause ->
  _build_notification json_loads parse_datetime payload =
  Err (InvalidPayloadFormatError cause).
Proof.
  intros Hj He Hi Hgood Hbad.
  unfold _build_notification, build_notification_body.
  rewrite Hj. cbn [bind]. rewrite He. cbn [bind]. rewrite Hi. cbn [bind].
  assert (forall acc, build_events parse_datetime (good ++ bad :: rest) acc = Err cause)
    as ->; [|reflexivity].
  clear - Hgood Hbad. induction good as [|g good IH]; intros acc;
    cbn [app build_events].
  - now rewrite Hbad.
  - cbn [forallb] in Hgood. apply andb_true_iff in Hgood as [Hg Hr].
    apply event_ok_iff in Hg as [e ->]. cbn [bind]. now apply IH.
Qed.

(** X12.  [events] that is no array.  Going through an empty object or an
    empty string gives no item, so the payload is accepted with no events;
    an object or a string that is not empty gives strings, which have no
    [at], and a number, a boolean or [null] cannot be gone through: both end
    with [InvalidPayloadFormatError] around a [TypeError]. *)
Theorem events_that_are_no_array (payload : str) (notification_json events_json : pyval) :
  json_loads payload = Ok notification_json ->
  getitem notification_json (py "events") = Ok events_json ->
  (forall items, events_json <> PList items) ->
  (exists what, _build_notification json_loads parse_datetime payload =
                Err (InvalidPayloadFormatError (TypeError what))) \/
  ((events_json = PDict [] \/ events_json = PStr []) /\
   forall n, _build_notification json_loads parse_datetime payload = Ok n ->
             events n = []).
Proof.
  intros Hj He Hlist.
  unfold _build_notification, build_notification_body.
  rewrite Hj. cbn [bind]. rewrite He. cbn [bind].
  destruct events_json as [| b | z | bits | s | items | items]; cbn [iterate bind];
    try (left; eexists; reflexivity).
  - destruct s as [|c s].
    + right. split; [now right|]. cbn [map build_events bind].
      intros n H.
      destruct (getitem notification_json (py "trigger_name")); [|discriminate].
      destruct (getitem notification_json (py "entity_id")); [|discriminate].
      cbn [bind] in H. now injection H as <-.
    + left. cbn [map build_events]. unfold build_event at 1.
      cbn [getitem bind]. eexists. reflexivity.
  - now destruct (Hlist items).
  - destruct items as [|[k v] items].
    + right. split; [now left|]. cbn [map build_events bind].
      intros n H.
      destruct (getitem notification_json (py "trigger_name")); [|discriminate].
      destruct (getitem notification_json (py "entity_id")); [|discriminate].
      cbn [bind] in H. now injection H as <-.
    + left. cbn [map build_events fst]. unfold build_event at 1.
      cbn [getitem bind]. eexists. reflexivity.
Qed.

End Failures.

(** ** Base64: what [add_event] encodes, [_build_notification] decodes *)

Lemma below_all (bound : nat) (P : N -> bool) :
  forallb P (map N.of_nat (seq 0 bound)) = true ->
  forall v, (v < N.of_nat bound)%N -> P v = true.
Proof.
  intros H v Hv. rewrite forallb_forall in H. apply H.
  apply in_map_iff. exists (N.to_nat v). split; [apply N2Nat.id|].
  apply in_seq. lia.
Qed.

Lemma table_b2a_a2b (v : N) :
  (v < 64)%N ->
  table_a2b_base64 (table_b2a_base64 v) = Some v /\
  N.eqb (table_b2a_base64 v) (chr "=") = false /\
  (table_b2a_base64 v <? 128)%N = true.
Proof.
  intros Hv.
  pose proof (below_all 64
    (fun v => match table_a2b_base64 (table_b2a_base64 v) with
              | Some v' => N.eqb v' v
              | None => false
              end &&
              negb (N.eqb (table_b2a_base64 v) (chr "=")) &&
              (table_b2a_base64 v <? 128)%N) eq_refl Hv) as H.
  cbv beta in H. apply andb_true_iff in H as [H H3]. apply andb_true_iff in H as [H1 H2].
  destruct (table_a2b_base64 (table_b2a_base64 v)) as [v'|]; [|discriminate].
  apply N.eqb_eq in H1. subst v'. apply negb_true_iff in H2. auto.
Qed.

Lemma land_shift8 (L b : N) : (b < 256)%N -> N.land (L * 2 ^ 8) b = 0%N.
Proof.
  intros Hb. apply N.bits_inj. intros i. rewrite N.land_spec, N.bits_0.
  destruct (N.ltb_spec i 8) as [Hi|Hi].
  - now rewrite N.mul_pow2_bits_low.
  - rewrite <- (N.mod_small b (2 ^ 8)) by exact Hb.
    rewrite N.mod_pow2_bits_high by exact Hi. apply andb_false_r.
Qed.

Lemma lor_shift8 (L b : N) : (b < 256)%N -> N.lor (N.shiftl L 8) b = (L * 256 + b)%N.
Proof.
  intros Hb. rewrite N.shiftl_mul_pow2.
  rewrite <- N.lxor_lor, <- N.add_nocarry_lxor by now apply land_shift8.
  reflexivity.
Qed.

(** The six bits that the encoder takes out of [leftchar], as numbers. *)
Lemma six_bits (L b shift : N) :
  (b < 256)%N -> (shift <= 6)%N ->
  N.land (N.shiftr (N.lor (N.shiftl L 8) b mod 2 ^ 32) shift) 0x3f =
  (((L * 256 + b) / 2 ^ shift) mod 64)%N.
Proof.
  intros Hb Hs. rewrite lor_shift8 by exact Hb.
  change 0x3f%N with (N.ones 6). rewrite N.land_ones, N.shiftr_div_pow2.
  change (2 ^ 6)%N with 64%N.
  assert (shift = 0 \/ shift = 1 \/ shift = 2 \/ shift = 3 \/ shift = 4 \/
          shift = 5 \/ shift = 6)%N as Hcases by lia.
  change (2 ^ 32)%N with 4294967296%N.
  destruct Hcases as [->|[->|[->|[->|[->|[->| ->]]]]]];
    match goal with
    | |- context [(2 ^ ?k)%N] =>
        let v := eval vm_compute in (2 ^ k)%N in change (2 ^ k)%N with v
    end;
    zify; Z.to_euclidean_division_equations; lia.
Qed.

Lemma b2a_cons_0 (b : N) (rest : bytes) (L : N) :
  b2a_base64 (b :: rest) L 0 =
  table_b2a_base64 (N.land (N.shiftr (N.lor (N.shiftl L 8) b mod 2 ^ 32) 2) 0x3f)
    :: b2a_base64 rest (N.lor (N.shiftl L 8) b mod 2 ^ 32) 2.
Proof. reflexivity. Qed.

Lemma b2a_cons_2 (b : N) (rest : bytes) (L : N) :
  b2a_base64 (b :: rest) L 2 =
  table_b2a_base64 (N.land (N.shiftr (N.lor (N.shiftl L 8) b mod 2 ^ 32) 4) 0x3f)
    :: b2a_base64 rest (N.lor (N.shiftl L 8) b mod 2 ^ 32) 4.
Proof. reflexivity. Qed.

Lemma b2a_cons_4 (b : N) (rest : bytes) (L : N) :
  b2a_base64 (b :: rest) L 4 =
  table_b2a_base64 (N.land (N.shiftr (N.lor (N.shiftl L 8) b mod 2 ^ 32) 6) 0x3f)
    :: table_b2a_base64 (N.land (N.shiftr (N.lor (N.shiftl L 8) b mod 2 ^ 32) 0) 0x3f)
    :: b2a_base64 rest (N.lor (N.shiftl L 8) b mod 2 ^ 32) 0.
Proof. reflexivity. Qed.

(** One character of the alphabet through the decoder. *)
Lemma a2b_alphabet (v : N) (rest : bytes) (quad_pos leftchar pads : N) (out : bytes) :
  (v < 64)%N ->
  a2b_base64 (table_b2a_base64 v :: rest) quad_pos leftchar pads out =
  (if quad_pos =? 0 then a2b_base64 rest 1 v 0 out
   else if quad_pos =? 1 then
     a2b_base64 rest 2 (v mod 16) 0 (out ++ [leftchar * 4 + v / 16])
   else if quad_pos =? 2 then
     a2b_base64 rest 3 (v mod 4) 0 (out ++ [leftchar * 16 + v / 4])
   else a2b_base64 rest 0 0 0 (out ++ [leftchar * 64 + v]))%N.
Proof.
  intros Hv. destruct (table_b2a_a2b Hv) as (Ht & Hp & _).
  cbn [a2b_base64]. now rewrite Hp, Ht.
Qed.

(** The decoder takes back what the encoder wrote, from each of the three
    states of the encoder: no bit left, two bits left of the byte [p], four
    bits left of the byte [p]. *)
Lemma a2b_b2a (bs : bytes) :
  Forall (fun b => b < 256)%N bs ->
  (forall L dl out,
     a2b_base64 (b2a_base64 bs L 0) 0 dl 0 out = Ok (out ++ bs)) /\
  (forall L out p,
     (p < 256)%N -> (L mod 4 = p mod 4)%N ->
     a2b_base64 (b2a_base64 bs L 2) 1 (p / 4) 0 out = Ok (out ++ p :: bs)) /\
  (forall L out p,
     (p < 256)%N -> (L mod 16 = p mod 16)%N ->
     a2b_base64 (b2a_base64 bs L 4) 2 (p / 16) 0 out = Ok (out ++ p :: bs)).
Proof.
  induction 1 as [|b rest Hb _ (IH0 & IH2 & IH4)].
  - split; [|split].
    + intros L dl out. cbn. now rewrite app_nil_r.
    + intros L out p Hp HL. cbn [b2a_base64 N.eqb Pos.eqb].
      change 3%N with (N.ones 2). rewrite N.land_ones, N.shiftl_mul_pow2.
      change (2 ^ 2)%N with 4%N. change (2 ^ 4)%N with 16%N.
      assert (L mod 4 * 16 < 64)%N as Hv by (zify; Z.to_euclidean_division_equations; lia).
      rewrite (a2b_alphabet _ _ _ _ _ Hv). cbn [N.eqb Pos.eqb].
      cbn [a2b_base64]. change (N.eqb (chr "=") (chr "=")) with true. cbv iota.
      change (2 <=? 2)%N with true. change (4 <=? 2 + (0 + 1))%N with false.
      change (4 <=? 2 + (0 + 1 + 1))%N with true. cbv iota.
      do 3 f_equal. rewrite HL. zify; Z.to_euclidean_division_equations; lia.
    + intros L out p Hp HL. cbn [b2a_base64 N.eqb Pos.eqb].
      change 0xf%N with (N.ones 4). rewrite N.land_ones, N.shiftl_mul_pow2.
      change (2 ^ 4)%N with 16%N. change (2 ^ 2)%N with 4%N.
      assert (L mod 16 * 4 < 64)%N as Hv by (zify; Z.to_euclidean_division_equations; lia).
      rewrite (a2b_alphabet _ _ _ _ _ Hv). cbn [N.eqb Pos.eqb].
      cbn [a2b_base64]. change (N.eqb (chr "=") (chr "=")) with true. cbv iota.
      change (2 <=? 3)%N with true. change (4 <=? 3 + (0 + 1))%N with true. cbv iota.
      do 3 f_equal. rewrite HL. zify; Z.to_euclidean_division_equations; lia.
  - split; [|split].
    + intros L dl out. rewrite b2a_cons_0, six_bits by (exact Hb || lia).
      change (2 ^ 2)%N with 4%N.
      assert (((L * 256 + b) / 4) mod 64 = b / 4)%N as ->
        by (zify; Z.to_euclidean_division_equations; lia).
      assert (b / 4 < 64)%N as Hv by (zify; Z.to_euclidean_division_equations; lia).
      rewrite (a2b_alphabet _ _ _ _ _ Hv). cbn [N.eqb].
      apply IH2; [exact Hb|]. rewrite lor_shift8 by exact Hb.
      change (2 ^ 32)%N with 4294967296%N.
      zify; Z.to_euclidean_division_equations; lia.
    + intros L out p Hp HL. rewrite b2a_cons_2, six_bits by (exact Hb || lia).
      change (2 ^ 4)%N with 16%N.
      assert (((L * 256 + b) / 16) mod 64 = (p mod 4) * 16 + b / 16)%N as ->
        by (rewrite <- HL; zify; Z.to_euclidean_division_equations; lia).
      assert ((p mod 4) * 16 + b / 16 < 64)%N as Hv
        by (zify; Z.to_euclidean_division_equations; lia).
      rewrite (a2b_alphabet _ _ _ _ _ Hv). cbn [N.eqb Pos.eqb].
      assert (p / 4 * 4 + (p mod 4 * 16 + b / 16) / 16 = p)%N as ->
        by (zify; Z.to_euclidean_division_equations; lia).
      assert ((p mod 4 * 16 + b / 16) mod 16 = b / 16)%N as ->
        by (zify; Z.to_euclidean_division_equations; lia).
      rewrite IH4; [now rewrite <- app_assoc|exact Hb|].
      rewrite lor_shift8 by exact Hb. change (2 ^ 32)%N with 4294967296%N.
      zify; Z.to_euclidean_division_equations; lia.
    + intros L out p Hp HL. rewrite b2a_cons_4, !six_bits by (exact Hb || lia).
      change (2 ^ 6)%N with 64%N. change (2 ^ 0)%N with 1%N.
      assert (((L * 256 + b) / 64) mod 64 = (p mod 16) * 4 + b / 64)%N as ->
        by (rewrite <- HL; zify; Z.to_euclidean_division_equations; lia).
      assert (((L * 256 + b) / 1) mod 64 = b mod 64)%N as ->
        by (zify; Z.to_euclidean_division_equations; lia).
      assert ((p mod 16) * 4 + b / 64 < 64)%N as Hv
        by (zify; Z.to_euclidean_division_equations; lia).
      assert (b mod 64 < 64)%N as Hv' by (zify; Z.to_euclidean_division_equations; lia).
      rewrite (a2b_alphabet _ _ _ _ _ Hv). cbn [N.eqb Pos.eqb].
      rewrite (a2b_alphabet _ _ _ _ _ Hv'). cbn [N.eqb Pos.eqb].
      assert (p / 16 * 16 + (p mod 16 * 4 + b / 64) / 4 = p)%N as ->
        by (zify; Z.to_euclidean_division_equations; lia).
      assert ((p mod 16 * 4 + b / 64) mod 4 * 64 + b mod 64 = b)%N as ->
        by (zify; Z.to_euclidean_division_equations; lia).
      rewrite IH0. now rewrite <- !app_assoc.
Qed.

Lemma table_b2a_ascii (x : N) : (table_b2a_base64 (N.land x 0x3f) <? 128)%N = true.
Proof.
  apply table_b2a_a2b. change 0x3f%N with (N.ones 6). rewrite N.land_ones.
  now apply N.mod_lt.
Qed.

Lemma b2a_base64_ascii (bs : bytes) :
  forall L,
  is_ascii (b2a_base64 bs L 0) = true /\ is_ascii (b2a_base64 bs L 2) = true /\
  is_ascii (b2a_base64 bs L 4) = true.
Proof.
  unfold is_ascii. induction bs as [|b rest IH]; intros L.
  - repeat split; cbn [b2a_base64 N.eqb Pos.eqb forallb]; rewrite ?andb_true_r;
      try reflexivity; apply table_b2a_a2b.
    + change 3%N with (N.ones 2). rewrite N.land_ones, N.shiftl_mul_pow2.
      change (2 ^ 2)%N with 4%N. change (2 ^ 4)%N with 16%N.
      zify; Z.to_euclidean_division_equations; lia.
    + change 0xf%N with (N.ones 4). rewrite N.land_ones, N.shiftl_mul_pow2.
      change (2 ^ 2)%N with 4%N. change (2 ^ 4)%N with 16%N.
      zify; Z.to_euclidean_division_equations; lia.
  - destruct (IH (N.lor (N.shiftl L 8) b mod 2 ^ 32)%N) as (I0 & I2 & I4).
    rewrite b2a_cons_0, b2a_cons_2, b2a_cons_4. cbn [forallb].
    now rewrite !table_b2a_ascii, I0, I2, I4.
Qed.

Lemma some_eq (A : Type) (x y : A) : Some x = Some y -> x = y.
Proof. now intros [=]. Qed.

Lemma utf8_char_range (c : N) (bs : bytes) :
  utf8_char c = Some bs -> Forall (fun b => b < 256)%N bs.
Proof.
  unfold utf8_char.
  destruct (N.ltb_spec c 0x80).
  { intros E. apply some_eq in E. subst bs.
    repeat apply Forall_cons; try apply Forall_nil. lia. }
  destruct (N.ltb_spec c 0x800).
  { intros E. apply some_eq in E. subst bs.
    repeat apply Forall_cons; try apply Forall_nil;
      zify; Z.to_euclidean_division_equations; lia. }
  destruct ((0xD800 <=? c)%N && (c <=? 0xDFFF)%N); [discriminate|].
  destruct (N.ltb_spec c 0x10000).
  { intros E. apply some_eq in E. subst bs.
    repeat apply Forall_cons; try apply Forall_nil;
      zify; Z.to_euclidean_division_equations; lia. }
  destruct (N.ltb_spec c 0x110000); [|discriminate].
  intros E. apply some_eq in E. subst bs.
  repeat apply Forall_cons; try apply Forall_nil;
    zify; Z.to_euclidean_division_equations; lia.
Qed.

Lemma encode_utf8_range (s : str) :
  forall bs, encode_utf8 s = Ok bs -> Forall (fun b => b < 256)%N bs.
Proof.
  induction s as [|c rest IH]; intros bs H; cbn [encode_utf8] in H.
  - injection H as <-. constructor.
  - destruct (utf8_char c) as [head|] eqn:Ec; [|discriminate].
    apply bind_ok in H as (tail & Ht & [= <-]).
    apply Forall_app. split; [eapply utf8_char_range, Ec|now apply IH].
Qed.

(** X13.  What is encoded is decoded: [base64.b64decode] gives back the
    bytes that [base64.b64encode] was given, so the [data] that [add_event]
    and the tests encode comes back in the event as the UTF-8 bytes of the
    text; and what the encoder writes is ASCII text. *)
Theorem b64decode_b64encode :
  (forall bs, Forall (fun b => b < 256)%N bs ->
     is_ascii (b64encode bs) = true /\
     b64decode (PStr (b64encode bs)) = Ok bs) /\
  (forall data encoded,
     add_event_data data = Ok encoded ->
     exists bs, encode_utf8 data = Ok bs /\ b64decode (PStr encoded) = Ok bs).
Proof.
  assert (forall bs, Forall (fun b => b < 256)%N bs ->
            is_ascii (b64encode bs) = true /\
            b64decode (PStr (b64encode bs)) = Ok bs) as Hbytes.
  { intros bs Hbs. unfold b64encode.
    destruct (b2a_base64_ascii bs 0) as (Ha & _ & _). split; [exact Ha|].
    unfold b64decode. rewrite Ha.
    exact (proj1 (a2b_b2a Hbs) 0%N 0%N []). }
  split; [exact Hbytes|].
  intros data encoded H. unfold add_event_data in H.
  apply bind_ok in H as (bs & Hbs & [= <-]). exists bs. split; [exact Hbs|].
  apply Hbytes. eapply encode_utf8_range, Hbs.
Qed.

Lemma b64decode_b64encode_witness :
  exists bs, encode_utf8 (py "youwin@vbang.dk") = Ok bs /\
    b64decode (PStr (py "eW91d2luQHZiYW5nLmRr")) = Ok bs.
Proof.
  apply (proj2 b64decode_b64encode (py "youwin@vbang.dk")). reflexivity.
Defined.

(** ** More deliveries *)


Lemma unverified_payload_is_not_decoded_witness :
  (exists e,
     construct_notification example_json_loads example_parse_datetime 0 0
       actual_payload (py "t=1602251283,v1=invalid") actual_secret = Err e) /\
  construct_notification example_json_loads example_parse_datetime 0 0
    actual_payload (py "t=1602251283,v1=invalid") actual_secret =
  construct_notification (fun _ => Err JSONDecodeError) example_parse_datetime 0 0
    actual_payload (py "t=1602251283,v1=invalid") actual_secret.
Proof.
  apply unverified_payload_is_not_decoded.
  intros sh expected Hp Hs.
  change (_parse_header (py "t=1602251283,v1=invalid"))
    with (Ok (mkSignedHeader (Some 1602251283%Z) [py "invalid"])) in Hp.
  injection Hp as <-. cbn [timestamp signatures] in *.
  rewrite actual_signature in Hs. injection Hs as <-.
  intros [H|[]]. discriminate H.
Defined.


Lemma first_failing_event_is_reported_witness :
  _build_notification more_json_loads example_parse_datetime failing_event_payload =
  Err (InvalidPayloadFormatError (KeyError (py "at"))).
Proof.
  apply (first_failing_event_is_reported more_json_loads example_parse_datetime
           failing_event_payload
           (notification_json := failing_event_json)
           (events_json := PList [actual_event_json; PDict []; PInt 5])
           [actual_event_json] [PInt 5] (PDict [])); reflexivity.
Defined.

Lemma events_that_are_no_array_witness :
  (exists what,
     _build_notification more_json_loads example_parse_datetime string_events_payload =
     Err (InvalidPayloadFormatError (TypeError what))) \/
  ((PStr [] = PDict [] \/ PStr [] = PStr []) /\
   forall n,
     _build_notification more_json_loads example_parse_datetime string_events_payload =
       Ok n -> events n = []).
Proof.
  apply (events_that_are_no_array more_json_loads example_parse_datetime
           string_events_payload (notification_json := string_events_json)).
  - reflexivity.
  - reflexivity.
  - discriminate.
Defined.

(** ** Keys that [_parse_header] does not know *)

Lemma split_app (sep : N) (a b : str) :
  split sep (a ++ sep :: b) = split sep a ++ split sep b.
Proof.
  induction a as [|c rest IH]; cbn [app split].
  - now rewrite N.eqb_refl.
  - rewrite IH. destruct (N.eqb c sep); [reflexivity|].
    destruct (split sep rest) as [|p ps] eqn:E; [now destruct (split_not_nil sep rest)|].
    reflexivity.
Qed.

Lemma parse_pairs_app (before after : list str) :
  forall sh0,
  parse_pairs (before ++ after) sh0 =
  (sh <- parse_pairs before sh0 ;; parse_pairs after sh).
Proof.
  induction before as [|element rest IH]; intros sh0; cbn [app parse_pairs bind].
  - reflexivity.
  - destruct (parse_pair sh0 element) as [sh1|e]; cbn [bind]; [apply IH|reflexivity].
Qed.

Lemma parse_pair_unknown_key (sh : SignedHeader) (key value : str) :
  key <> py "t" -> key <> SigningVersion ->
  ~ In (chr "=") key -> ~ In (chr "=") value ->
  parse_pair sh (key ++ chr "=" :: value) = Ok sh.
Proof.
  intros Ht Hv Hk Hval. unfold parse_pair.
  rewrite split_at_separator, split_no_separator by assumption.
  apply str_eqb_neq in Ht, Hv. now rewrite Ht, Hv.
Qed.

(** X14.  A pair with a key that is neither [t] nor [v1], put between two
    commas of a header, changes nothing: the header is parsed, or refused,
    as it is without the pair. *)
Theorem unknown_key_is_ignored (before after key value : str) :
  key <> py "t" -> key <> SigningVersion ->
  ~ In (chr "=") key -> ~ In (chr ",") key ->
  ~ In (chr "=") value -> ~ In (chr ",") value ->
  _parse_header (before ++ chr "," :: (key ++ chr "=" :: value) ++ chr "," :: after) =
  _parse_header (before ++ chr "," :: after).
Proof.
  intros Ht Hv Hke Hkc Hve Hvc.
  assert (forall s : str, before ++ chr "," :: s <> []) as Hne
    by (intros s H; now destruct before).
  rewrite !parse_header_unfold by apply Hne.
  rewrite !split_app.
  rewrite (@split_no_separator (chr ",") (key ++ chr "=" :: value)).
  2:{ intros Hin. apply in_app_or in Hin as [Hin|[Hin|Hin]]; try contradiction.
      discriminate Hin. }
  rewrite !parse_pairs_app.
  destruct (parse_pairs (split (chr ",") before) (mkSignedHeader None [])) as [sh|e];
    [|reflexivity].
  cbn [bind app parse_pairs]. now rewrite parse_pair_unknown_key.
Qed.

Lemma unknown_key_is_ignored_witness :
  _parse_header (py "t=42133742" ++ chr "," :: (py "v0" ++ chr "=" :: py "BAR") ++
                 chr "," :: py "v1=FOO") =
  _parse_header (py "t=42133742" ++ chr "," :: py "v1=FOO").
Proof.
  apply unknown_key_is_ignored; try discriminate;
    intros H; repeat (destruct H as [H|H]; try discriminate H); exact H.
Defined.
